(** * make_scripts/move_localization.py: moving Fluent keys between files

    A shallow embedding of [move_and_rename_fluent_strings] and the
    properties of its entry partition, key renaming, destination merge and
    file effects.

    Conventions of the model.
    - A Python [str] is a [string]; one [ascii] stands for one character,
      and a file's content is its decoded text.
    - [os.path] is [posixpath]; text files are read with universal newlines
      and written with the line separator of POSIX.
    - The file system is a finite map from path strings to file contents;
      distinct path strings name distinct files, every path that exists is
      a regular file, and a write to a path succeeds.
    - [fluent.syntax] is an external library: its parser and serializer are
      parameters, and so are the contents of messages, terms and
      annotations.
    - Python objects live in a heap of entries addressed by references, so
      that the in-place renaming of [entry.id.name] and the identity of
      the entries in the two lists are the ones of the program. *)

From Stdlib Require Import Ascii String.
From stdpp Require Import base strings list gmap pretty.

(** ** Python and POSIX string primitives *)

Module Py.

(** [s.startswith(p)] *)
Fixpoint startswith (p s : string) : bool :=
  match p, s with
  | EmptyString, _ => true
  | String a p', String b s' => if Ascii.eqb a b then startswith p' s' else false
  | String _ _, EmptyString => false
  end.

(** [s[n:]] *)
Fixpoint drop (n : nat) (s : string) : string :=
  match n, s with
  | O, _ => s
  | S n', String _ s' => drop n' s'
  | S _, EmptyString => EmptyString
  end.

(** [s.replace(old, new, 1)]: the leftmost occurrence of [old] is replaced;
    an empty [old] occurs at position 0. *)
Fixpoint replace1 (old new s : string) : string :=
  if startswith old s then new +:+ drop (String.length old) s
  else match s with
       | EmptyString => EmptyString
       | String c s' => String c (replace1 old new s')
       end.

(** [str.isspace] on one character (code points below 256). *)
Definition isspace (c : ascii) : bool :=
  let n := nat_of_ascii c in
  ((9 <=? n) && (n <=? 13)) || ((28 <=? n) && (n <=? 32))
  || (n =? 133) || (n =? 160).

Fixpoint lstrip (s : string) : string :=
  match s with
  | EmptyString => EmptyString
  | String c s' => if isspace c then lstrip s' else s
  end.

Definition rstrip (s : string) : string := String.rev (lstrip (String.rev s)).

(** [s.strip()] *)
Definition strip (s : string) : string := rstrip (lstrip s).

Definition LF : ascii := "010"%char.
Definition CR : ascii := "013"%char.

(** Newline translation of a text file opened for reading with
    [newline=None]: each of CR LF, CR and LF becomes LF. *)
Fixpoint universal_newlines (s : string) : string :=
  match s with
  | EmptyString => EmptyString
  | String c s' =>
      if Ascii.eqb c CR then
        String LF
          match s' with
          | String c' s'' =>
              if Ascii.eqb c' LF then universal_newlines s''
              else universal_newlines s'
          | EmptyString => EmptyString
          end
      else String c (universal_newlines s')
  end.

(** Iterating over a text file: the lines, each with its final LF. *)
Fixpoint readlines (s : string) : list string :=
  match s with
  | EmptyString => []
  | String c s' =>
      if Ascii.eqb c LF then String c EmptyString :: readlines s'
      else match readlines s' with
           | [] => [String c EmptyString]
           | l :: ls => String c l :: ls
           end
  end.

(** [s.rfind(c)] for a one-character [c]: the last index, or -1. *)
Fixpoint rfind_from (c : ascii) (i : Z) (s : string) (last : Z) : Z :=
  match s with
  | EmptyString => last
  | String a s' => rfind_from c (i + 1) s' (if Ascii.eqb a c then i else last)
  end.

Definition rfind (c : ascii) (s : string) : Z := rfind_from c 0 s (-1).

(** [s[:n]] *)
Definition take (n : nat) (s : string) : string := String.substring 0 n s.

(** The loop of [genericpath._splitext] that skips leading dots: is there a
    character other than the dot among the [count] ones from index
    [filenameIndex]? *)
Fixpoint has_name_before_dot (p : string) (filenameIndex count : nat) : bool :=
  match count with
  | O => false
  | S count' =>
      match String.get filenameIndex p with
      | Some a =>
          if Ascii.eqb a "."%char
          then has_name_before_dot p (S filenameIndex) count'
          else true
      | None => true
      end
  end.

(** [posixpath.splitext(p)] *)
Definition splitext (p : string) : string * string :=
  let sepIndex := rfind "/"%char p in
  let dotIndex := rfind "."%char p in
  if bool_decide (dotIndex > sepIndex)%Z then
    let filenameIndex := Z.to_nat (sepIndex + 1) in
    if has_name_before_dot p filenameIndex (Z.to_nat dotIndex - filenameIndex)
    then (take (Z.to_nat dotIndex) p, drop (Z.to_nat dotIndex) p)
    else (p, EmptyString)
  else (p, EmptyString).

(** [s.endswith("/")] *)
Fixpoint ends_with_sep (s : string) : bool :=
  match s with
  | EmptyString => false
  | String c EmptyString => Ascii.eqb c "/"%char
  | String _ s' => ends_with_sep s'
  end.

(** [posixpath.join(a, b)] *)
Definition join (a b : string) : string :=
  if startswith "/" b then b
  else if bool_decide (a = EmptyString) || ends_with_sep a then a +:+ b
  else a +:+ "/" +:+ b.

End Py.

(** [old] occurs in [s] at the position after [pre]. *)
Definition occurs_after (old s pre : string) : Prop :=
  ∃ post, s = pre +:+ old +:+ post.

(** A reference to an object: its address in the heap. *)
Abbreviation ref := nat.

(** ** fluent.syntax.ast: the entries of a resource *)

Section Migrator.

(** What a message or a term carries besides its identifier (value,
    attributes, comment) and what a junk entry is annotated with: the
    program never looks inside. *)
Context {Payload Annotation : Type}.

Inductive Entry : Type :=
  | Message (id : string) (rest : Payload)
  | Term (id : string) (rest : Payload)
  | Comment (content : string)
  | GroupComment (content : string)
  | ResourceComment (content : string)
  | Junk (content : string) (annotations : list Annotation).

#[global] Instance Entry_inhabited : Inhabited Entry := populate (Junk EmptyString []).

(** [entry.id.name] when [isinstance(entry, (ast.Message, ast.Term))]. *)
Definition entry_id (e : Entry) : option string :=
  match e with
  | Message id _ | Term id _ => Some id
  | _ => None
  end.

(** [entry.id.name = name] *)
Definition set_id (e : Entry) (name : string) : Entry :=
  match e with
  | Message _ rest => Message name rest
  | Term _ rest => Term name rest
  | _ => e
  end.

(** [isinstance(entry, ast.Junk)] *)
Definition is_junk (e : Entry) : bool :=
  match e with
  | Junk _ _ => true
  | _ => false
  end.

(** [ast.Junk(content="\n\n")] *)
Definition blank_line_junk : Entry :=
  Junk (String Py.LF (String Py.LF EmptyString)) [].

(** ** The heap of entry objects *)

(** New objects get the next free addresses. *)
Definition alloc (h : list Entry) (es : list Entry) : list Entry * list ref :=
  (h ++ es, seq (length h) (length es)).

Definition deref (h : list Entry) (rs : list ref) : list Entry :=
  (λ r, h !!! r) <$> rs.

(** ** Lines 61-77: the entry loop *)

Record loop_state : Type := LoopState {
  st_heap : list Entry;
  moved_entries : list ref;
  remaining_entries : list ref;
  st_printed : list string
}.

Definition loop_init (h : list Entry) : loop_state :=
  {| st_heap := h; moved_entries := []; remaining_entries := [];
     st_printed := [] |}.

Definition renamed_line (old_id new_id_name : string) : string :=
  "Renamed '" +:+ old_id +:+ "' to '" +:+ new_id_name +:+ "'".

Section Loop.

(** [keys_to_move], and the two prefixes of lines 25-29: [None] when
    [rename_keys] is false. *)
Variable keys_to_move : gset string.
Variable prefixes : option (string * string).

Definition loop_body (st : loop_state) (entry : ref) : loop_state :=
  match entry_id (st_heap st !!! entry) with
  | Some old_id =>
      if bool_decide (old_id ∈ keys_to_move) then
        match prefixes with
        | Some (source_prefix, destination_prefix) =>
            let new_id_name := Py.replace1 source_prefix destination_prefix old_id in
            {| st_heap := <[entry := set_id (st_heap st !!! entry) new_id_name]> (st_heap st);
               moved_entries := moved_entries st ++ [entry];
               remaining_entries := remaining_entries st;
               st_printed := st_printed st ++ [renamed_line old_id new_id_name] |}
        | None =>
            {| st_heap := st_heap st;
               moved_entries := moved_entries st ++ [entry];
               remaining_entries := remaining_entries st;
               st_printed := st_printed st |}
        end
      else
        {| st_heap := st_heap st;
           moved_entries := moved_entries st;
           remaining_entries := remaining_entries st ++ [entry];
           st_printed := st_printed st |}
  | None =>
      {| st_heap := st_heap st;
         moved_entries := moved_entries st;
         remaining_entries := remaining_entries st ++ [entry];
         st_printed := st_printed st |}
  end.

Definition entry_loop (body : list ref) (st : loop_state) : loop_state :=
  fold_left loop_body body st.

(** The test of lines 66-67 on an entry. *)
Definition to_move (e : Entry) : bool :=
  match entry_id e with
  | Some k => bool_decide (k ∈ keys_to_move)
  | None => false
  end.

End Loop.

(** ** Lines 88-95: appending the moved entries to the destination *)

Definition needs_separator (h : list Entry) (destination_body : list ref) : bool :=
  match last destination_body with
  | Some last_entry => negb (is_junk (h !!! last_entry))
  | None => false
  end.

Definition merge_destination (h : list Entry) (destination_body moved : list ref)
  : list Entry * list ref :=
  let '(h', body') :=
    if needs_separator h destination_body then
      let '(h', marker) := alloc h [blank_line_junk] in
      (h', destination_body ++ marker)
    else (h, destination_body) in
  (h', body' ++ moved).

(** ** The world: files, directory scans and what the run did *)

Inductive event : Type :=
  | EvPrint (line : string)
  | EvExists (path : string) (found : bool)
  | EvGlob (pattern : string)
  | EvRead (path : string)
  | EvWrite (path : string) (text : string).

Record world : Type := World {
  files : gmap string string;
  listing : string → list string;
  trace : list event
}.

Inductive exn : Type :=
  | FileNotFoundError (path : string).

Definition M (A : Type) : Type := world → (exn + A) * world.

#[global] Instance M_ret : MRet M := λ A a w, (inr a, w).
#[global] Instance M_bind : MBind M := λ A B f m w,
  match m w with
  | (inr a, w') => f a w'
  | (inl e, w') => (inl e, w')
  end.

Definition emit (e : event) (w : world) : world :=
  {| files := files w; listing := listing w; trace := trace w ++ [e] |}.

Definition print (line : string) : M unit :=
  λ w, (inr tt, emit (EvPrint line) w).

(** [os.path.exists(path)] *)
Definition path_exists (path : string) : M bool :=
  λ w, let found := bool_decide (is_Some (files w !! path)) in
       (inr found, emit (EvExists path found) w).

(** [open(path, 'r', encoding='utf-8')] and [f.read()] *)
Definition read_text (path : string) : M string :=
  λ w, match files w !! path with
       | Some content => (inr (Py.universal_newlines content), emit (EvRead path) w)
       | None => (inl (FileNotFoundError path), w)
       end.

(** [open(path, 'w', encoding='utf-8')] and [f.write(text)] *)
Definition write_text (path text : string) : M unit :=
  λ w, (inr tt, {| files := <[path := text]> (files w);
                   listing := listing w;
                   trace := trace w ++ [EvWrite path text] |}).

(** [glob.glob(pattern)] *)
Definition glob (pattern : string) : M (list string) :=
  λ w, (inr (listing w pattern), emit (EvGlob pattern) w).

Fixpoint for_each {A : Type} (l : list A) (body : A → M unit) : M unit :=
  match l with
  | [] => mret tt
  | x :: l' => body x;; for_each l' body
  end.

(** ** move_and_rename_fluent_strings *)

(** Line 32: the set of the stripped, non-blank lines of the key list. *)
Definition read_keys (text : string) : gset string :=
  list_to_set (filter (λ s, s ≠ EmptyString) (Py.strip <$> Py.readlines text)).

(** [FluentParser().parse] and [FluentSerializer().serialize], on the body
    of a resource. *)
Variable parse : string → list Entry.
Variable serialize : list Entry → string.

Section Run.

Variables base_dir strings_to_move_file source_filename destination_filename : string.
Variable rename_keys : bool.

(** Lines 25-29 *)
Definition prefixes : option (string * string) :=
  if rename_keys
  then Some ((Py.splitext source_filename).1, (Py.splitext destination_filename).1)
  else None.

Definition skipping_line (lang_dir : string) : string :=
  "Skipping " +:+ lang_dir +:+ ": '" +:+ source_filename +:+ "' not found.".

Definition processing_line (source_file : string) : string :=
  String Py.LF ("Processing '" +:+ source_file +:+ "'...").

Definition moved_line (n : nat) (destination_file : string) : string :=
  "Successfully moved " +:+ pretty n +:+ " keys to '" +:+ destination_file +:+ "'.".

Definition no_keys_found_line : string := "No keys found to move in this file.".

Definition updated_line : string :=
  "Updated the source file. Operation complete for this language.".

(** Lines 80-85: the destination resource, parsed or new. *)
Definition load_destination (h : list Entry) (destination_file : string)
  : M (list Entry * list ref) :=
  found ← path_exists destination_file;
  if (found : bool) then
    destination_content ← read_text destination_file;
    mret (alloc h (parse destination_content))
  else mret (h, []).

(** Lines 46-109: one turn of the loop over the language directories. *)
Definition process_dir (keys_to_move : gset string) (lang_dir : string) : M unit :=
  let source_file := Py.join lang_dir source_filename in
  let destination_file := Py.join lang_dir destination_filename in
  found ← path_exists source_file;
  if negb found then print (skipping_line lang_dir)
  else
    print (processing_line source_file);;
    source_content ← read_text source_file;
    let '(h0, source_body) := alloc [] (parse source_content) in
    let st := entry_loop keys_to_move prefixes source_body (loop_init h0) in
    (* line 72: printing is all the loop does to the world *)
    for_each (st_printed st) print;;
    '(h1, destination_body) ← load_destination (st_heap st) destination_file;
    h2 ←
      match moved_entries st with
      | _ :: _ =>
          let '(h2, merged) := merge_destination h1 destination_body (moved_entries st) in
          write_text destination_file (serialize (deref h2 merged));;
          print (moved_line (length (moved_entries st)) destination_file);;
          mret h2
      | [] => print no_keys_found_line;; mret h1
      end;
    write_text source_file (serialize (deref h2 (remaining_entries st)));;
    print updated_line.

Definition missing_list_line : string :=
  "Error: The strings list file '" +:+ strings_to_move_file +:+ "' does not exist.".

Definition no_keys_line : string := "No keys to move. Exiting.".

Definition no_dirs_line : string :=
  "No language directories found in '" +:+ base_dir +:+ "'. Exiting.".

Definition move_and_rename_fluent_strings : M unit :=
  found ← path_exists strings_to_move_file;
  if negb found then print missing_list_line
  else
    text ← read_text strings_to_move_file;
    let keys_to_move := read_keys text in
    if decide (keys_to_move = ∅) then print no_keys_line
    else
      language_dirs ← glob (Py.join base_dir "*/");
      match language_dirs with
      | [] => print no_dirs_line
      | _ :: _ => for_each language_dirs (process_dir keys_to_move)
      end.

End Run.

End Migrator.

Arguments Entry : clear implicits.
Arguments loop_state : clear implicits.

(** ** What one language directory comes to

    The values the loop leaves in the two lists and the entries that are
    written to the destination, as functions of the parsed entries. *)

Section Outcome.

Context {Payload Annotation : Type}.
#[local] Abbreviation Entry := (Entry Payload Annotation).

(** The only change an entry undergoes: lines 68-71. *)
Definition rename_entry (prefixes : option (string * string)) (e : Entry) : Entry :=
  match prefixes, entry_id e with
  | Some (source_prefix, destination_prefix), Some old_id =>
      set_id e (Py.replace1 source_prefix destination_prefix old_id)
  | _, _ => e
  end.

(** Line 72, for each of the entries that are moved. *)
Definition rename_lines (prefixes : option (string * string)) (es : list Entry)
  : list string :=
  match prefixes with
  | Some (source_prefix, destination_prefix) =>
      omap (λ e, old_id ← entry_id e;
                 Some (renamed_line old_id
                         (Py.replace1 source_prefix destination_prefix old_id))) es
  | None => []
  end.

Definition moved_values (keys_to_move : gset string)
    (prefixes : option (string * string)) (es : list Entry) : list Entry :=
  rename_entry prefixes <$> filter (λ e, to_move keys_to_move e) es.

Definition remaining_values (keys_to_move : gset string) (es : list Entry)
  : list Entry :=
  filter (λ e, ¬ to_move keys_to_move e) es.

(** The separator of lines 90-93, on the entries of the destination. *)
Definition wants_separator (destination : list Entry) : bool :=
  match last destination with
  | Some last_entry => negb (is_junk last_entry)
  | None => false
  end.

Definition separator (destination : list Entry) : list Entry :=
  if wants_separator destination then [blank_line_junk] else [].

Definition merged_values (destination moved : list Entry) : list Entry :=
  destination ++ separator destination ++ moved.

End Outcome.

(** The result of one turn of the loop over the directories, from the
    files as they are when the turn starts. *)

Section DirOutcome.

Context {Payload Annotation : Type}.
#[local] Abbreviation Entry := (Entry Payload Annotation).

Variable parse : string → list Entry.
Variable serialize : list Entry → string.
Variables source_filename destination_filename : string.
Variable rename_keys : bool.
Variable keys_to_move : gset string.

(** The entries the parser returns for the file at [path], none when
    there is no such file. *)
Definition entries_at (w : world) (path : string) : list Entry :=
  match files w !! path with
  | Some content => parse (Py.universal_newlines content)
  | None => []
  end.

Definition dir_moved (w : world) (lang_dir : string) : list Entry :=
  moved_values keys_to_move (prefixes source_filename destination_filename rename_keys)
    (entries_at w (Py.join lang_dir source_filename)).

Definition dir_remaining (w : world) (lang_dir : string) : list Entry :=
  remaining_values keys_to_move (entries_at w (Py.join lang_dir source_filename)).

Definition dir_merged (w : world) (lang_dir : string) : list Entry :=
  merged_values (entries_at w (Py.join lang_dir destination_filename))
    (dir_moved w lang_dir).

Definition dir_files (w : world) (lang_dir : string) : gmap string string :=
  <[Py.join lang_dir source_filename := serialize (dir_remaining w lang_dir)]>
    (match dir_moved w lang_dir with
     | [] => files w
     | _ :: _ =>
         <[Py.join lang_dir destination_filename := serialize (dir_merged w lang_dir)]>
           (files w)
     end).

Definition dir_events (w : world) (lang_dir : string) : list event :=
  let source_file := Py.join lang_dir source_filename in
  let destination_file := Py.join lang_dir destination_filename in
  [EvExists source_file true; EvPrint (processing_line source_file);
   EvRead source_file]
  ++ (EvPrint <$> rename_lines (prefixes source_filename destination_filename rename_keys)
        (filter (λ e, to_move keys_to_move e) (entries_at w source_file)))
  ++ [EvExists destination_file (bool_decide (is_Some (files w !! destination_file)))]
  ++ (if bool_decide (is_Some (files w !! destination_file))
      then [EvRead destination_file] else [])
  ++ (match dir_moved w lang_dir with
      | [] => [EvPrint no_keys_found_line]
      | _ :: _ =>
          [EvWrite destination_file (serialize (dir_merged w lang_dir));
           EvPrint (moved_line (length (dir_moved w lang_dir)) destination_file)]
      end)
  ++ [EvWrite source_file (serialize (dir_remaining w lang_dir));
      EvPrint updated_line].

End DirOutcome.

(** ** A line-oriented stand-in for fluent.syntax

    One entry per line, [key = value] for a message, [-key = value] for a
    term, [# text] for a comment and junk otherwise; junk is not written
    back, as with [FluentSerializer()]. It serves to run the model on
    concrete files. *)

Module Toy.

Abbreviation Entry := (Entry string Empty_set).

Fixpoint split_at (sep s : string) : option (string * string) :=
  if Py.startswith sep s then Some (EmptyString, Py.drop (String.length sep) s)
  else match s with
       | EmptyString => None
       | String c s' =>
           match split_at sep s' with
           | Some (a, b) => Some (String c a, b)
           | None => None
           end
       end.

Definition parse_line (l : string) : Entry :=
  match split_at " = " (Py.rstrip l) with
  | Some (k, v) =>
      if Py.startswith "-" k then Term (Py.drop 1 k) v else Message k v
  | None =>
      if Py.startswith "# " l then Comment (Py.rstrip (Py.drop 2 l)) else Junk l []
  end.

Definition parse (text : string) : list Entry :=
  parse_line <$> Py.readlines text.

Definition nl : string := String Py.LF EmptyString.

Definition serialize_entry (e : Entry) : string :=
  match e with
  | Message k v => k +:+ " = " +:+ v +:+ nl
  | Term k v => "-" +:+ k +:+ " = " +:+ v +:+ nl
  | Comment c => "# " +:+ c +:+ nl
  | GroupComment c => "## " +:+ c +:+ nl
  | ResourceComment c => "### " +:+ c +:+ nl
  | Junk _ _ => EmptyString
  end.

Definition serialize (es : list Entry) : string :=
  foldr (λ e s, serialize_entry e +:+ s) EmptyString es.

(** A tree with two language directories, [loc/en/] with the source file
    and [loc/de/] without it, and a key list that names [b]. *)
Definition scan (pattern : string) : list string :=
  if bool_decide (pattern = "loc/*/") then ["loc/en/"; "loc/de/"] else [].

Definition abc : string := "a = 1" +:+ nl +:+ "b = 2" +:+ nl +:+ "c = 3" +:+ nl.

Definition fresh : world :=
  {| files := {[ "keys.txt" := "b" +:+ nl; "loc/en/common.ftl" := abc ]};
     listing := scan;
     trace := [] |}.

(** The same tree with a destination file that is there already. *)
Definition with_destination : world :=
  {| files := <["loc/en/new_component.ftl" := "x = 0" +:+ nl]> (files fresh);
     listing := scan;
     trace := [] |}.

(** The key list is missing. *)
Definition no_key_list : world :=
  {| files := {[ "loc/en/common.ftl" := abc ]}; listing := scan; trace := [] |}.

(** The base directory has no subdirectory. *)
Definition no_directories : world :=
  {| files := {[ "keys.txt" := "b" +:+ nl ]}; listing := λ _, []; trace := [] |}.

End Toy.

(** ** Reading a trace *)

(** The lines a list of events printed, in order. *)
Definition printed_lines (events : list event) : list string :=
  omap (λ e, match e with EvPrint line => Some line | _ => None end) events.

(** The world when the loop starts: the key list was tested and read,
    the base directory was scanned. *)
Definition scanned (base_dir strings_to_move_file : string) (w : world) : world :=
  {| files := files w; listing := listing w;
     trace := trace w ++
       [EvExists strings_to_move_file true; EvRead strings_to_move_file;
        EvGlob (Py.join base_dir "*/")] |}.

(** A key list with blank lines only, for the tree of [Toy.fresh]. *)
Definition blank_key_list : world :=
  {| files := <["keys.txt" := "  " +:+ Toy.nl +:+ Toy.nl]> (files Toy.fresh);
     listing := Toy.scan;
     trace := [] |}.

(** The files a list of events wrote, with the text of each write, in
    order. *)
Definition written_texts (events : list event) : list (string * string) :=
  omap (λ e, match e with EvWrite path text => Some (path, text) | _ => None end)
    events.

(** Every read among [events] is of a path that a test found before,
    among [seen] or earlier in [events]. *)
Definition reads_tested (seen events : list event) : Prop :=
  ∀ before path after,
    events = before ++ EvRead path :: after →
    EvExists path true ∈ seen ++ before.


(** ** Python string primitives: facts *)

Section PyFacts.

Lemma append_cons (c : ascii) (s t : string) :
  String c s +:+ t = String c (s +:+ t).
Proof. reflexivity. Qed.

Lemma append_nil (t : string) : EmptyString +:+ t = t.
Proof. reflexivity. Qed.

Lemma startswith_spec (p s : string) :
  Py.startswith p s = true ↔ ∃ t, s = p +:+ t.
Proof.
  revert s. induction p as [|a p IH]; intros s; simpl.
  - split; [intros _; by exists s | done].
  - destruct s as [|b s].
    + split; [done | intros [t Ht]; discriminate].
    + destruct (Ascii.eqb_spec a b) as [->|Hne].
      * rewrite IH. split; intros [t Ht]; exists t;
          rewrite append_cons in *; congruence.
      * split; [done | intros [t Ht]; rewrite append_cons in Ht; congruence].
Qed.

Lemma drop_app (p t : string) : Py.drop (String.length p) (p +:+ t) = t.
Proof.
  induction p as [|a p IH]; [by destruct t|].
  rewrite append_cons. simpl. exact IH.
Qed.

Lemma replace1_unfold (old new s : string) :
  Py.replace1 old new s =
    if Py.startswith old s then new +:+ Py.drop (String.length old) s
    else match s with
         | EmptyString => EmptyString
         | String c s' => String c (Py.replace1 old new s')
         end.
Proof. by destruct s. Qed.

Lemma replace1_here (old new post : string) :
  Py.replace1 old new (old +:+ post) = new +:+ post.
Proof.
  rewrite replace1_unfold.
  replace (Py.startswith old (old +:+ post)) with true
    by (symmetry; apply startswith_spec; eauto).
  by rewrite drop_app.
Qed.

(** The leftmost occurrence is the one that is replaced. *)
Lemma replace1_first (old new pre post : string) :
  (∀ pre', occurs_after old (pre +:+ old +:+ post) pre' →
           String.length pre ≤ String.length pre') →
  Py.replace1 old new (pre +:+ old +:+ post) = pre +:+ new +:+ post.
Proof.
  induction pre as [|c pre IH]; intros Hfirst.
  - exact (replace1_here old new post).
  - rewrite replace1_unfold.
    destruct (Py.startswith old (String c pre +:+ old +:+ post)) eqn:E.
    + apply startswith_spec in E as [t Ht].
      specialize (Hfirst EmptyString). simpl in Hfirst.
      exfalso. assert (S (String.length pre) ≤ 0); [|lia].
      apply Hfirst. exists t. exact Ht.
    + rewrite !append_cons. f_equal. apply IH. intros pre' [post' Hocc].
      specialize (Hfirst (String c pre')). simpl in Hfirst.
      assert (S (String.length pre) ≤ S (String.length pre')); [|lia].
      apply Hfirst. exists post'. rewrite !append_cons. by rewrite <- Hocc.
Qed.

(** Without an occurrence the string is returned as it is. *)
Lemma replace1_absent (old new s : string) :
  (∀ pre, ¬ occurs_after old s pre) → Py.replace1 old new s = s.
Proof.
  induction s as [|c s IH]; intros Hno.
  - destruct old as [|o old]; simpl; [|done].
    exfalso. apply (Hno EmptyString). by exists EmptyString.
  - rewrite replace1_unfold. destruct (Py.startswith old (String c s)) eqn:E.
    + apply startswith_spec in E as [t Ht].
      exfalso. apply (Hno EmptyString). exists t. exact Ht.
    + f_equal. apply IH. intros pre [post Hocc].
      apply (Hno (String c pre)). exists post. rewrite append_cons. by rewrite Hocc.
Qed.

End PyFacts.

(** ** The entry loop *)

Section LoopFacts.

Context {Payload Annotation : Type}.
#[local] Abbreviation Entry := (Entry Payload Annotation).
#[local] Abbreviation loop_state := (loop_state Payload Annotation).

Variable keys_to_move : gset string.
Variable prefixes : option (string * string).

Lemma filter_ext_in {A : Type} (P Q : A → Prop)
    `{!∀ x, Decision (P x)} `{!∀ x, Decision (Q x)} (l : list A) :
  (∀ x, x ∈ l → P x ↔ Q x) → filter P l = filter Q l.
Proof.
  induction l as [|a l IH]; intros Hext; [done|].
  rewrite !filter_cons.
  assert (P a ↔ Q a) as Ha by (apply Hext; left).
  rewrite IH by (intros x Hx; apply Hext; by right).
  destruct (decide (P a)), (decide (Q a)); tauto.
Qed.

Lemma rename_lines_app (es1 es2 : list Entry) :
  rename_lines prefixes (es1 ++ es2)
  = rename_lines prefixes es1 ++ rename_lines prefixes es2.
Proof.
  unfold rename_lines. destruct prefixes as [[sp dp]|]; [|done].
  apply omap_app.
Qed.

Lemma to_move_in_range (h : list Entry) (r : ref) :
  to_move keys_to_move (h !!! r) → r < length h.
Proof.
  intros Hm. destruct (decide (r < length h)) as [|Hge]; [done|].
  rewrite list_lookup_total_alt, lookup_ge_None_2 in Hm by lia. done.
Qed.

(** One turn of the loop, by the test of lines 66-67. *)
Lemma loop_body_eq (st : loop_state) (r : ref) :
  loop_body keys_to_move prefixes st r =
    if to_move keys_to_move (st_heap st !!! r) then
      {| st_heap :=
           match prefixes with
           | Some _ => <[r := rename_entry prefixes (st_heap st !!! r)]> (st_heap st)
           | None => st_heap st
           end;
         moved_entries := moved_entries st ++ [r];
         remaining_entries := remaining_entries st;
         st_printed := st_printed st ++ rename_lines prefixes [st_heap st !!! r] |}
    else
      {| st_heap := st_heap st;
         moved_entries := moved_entries st;
         remaining_entries := remaining_entries st ++ [r];
         st_printed := st_printed st |}.
Proof.
  unfold loop_body, to_move, rename_entry, rename_lines.
  destruct (entry_id (st_heap st !!! r)) as [old|] eqn:E; [|done].
  destruct (bool_decide (old ∈ keys_to_move)); [|done].
  destruct prefixes as [[sp dp]|]; simpl; rewrite ?E; simpl; [done|].
  by rewrite app_nil_r.
Qed.

Lemma loop_body_heap_other (st : loop_state) (r r' : ref) :
  r ≠ r' → st_heap (loop_body keys_to_move prefixes st r) !!! r' = st_heap st !!! r'.
Proof.
  intros Hne. rewrite loop_body_eq.
  destruct (to_move keys_to_move (st_heap st !!! r)); [|done].
  destruct prefixes; simpl; [|done].
  by rewrite list_lookup_total_insert_ne.
Qed.

Lemma rename_entry_None (e : Entry) : rename_entry None e = e.
Proof. done. Qed.

Lemma loop_body_heap_same (st : loop_state) (r : ref) :
  st_heap (loop_body keys_to_move prefixes st r) !!! r =
    if to_move keys_to_move (st_heap st !!! r)
    then rename_entry prefixes (st_heap st !!! r)
    else st_heap st !!! r.
Proof.
  rewrite loop_body_eq.
  destruct (to_move keys_to_move (st_heap st !!! r)) eqn:E; [|done].
  destruct prefixes as [p|] eqn:Ep; simpl; [|done].
  apply list_lookup_total_insert_eq, to_move_in_range. by rewrite E.
Qed.

Lemma loop_body_heap_length (st : loop_state) (r : ref) :
  length (st_heap (loop_body keys_to_move prefixes st r)) = length (st_heap st).
Proof.
  rewrite loop_body_eq.
  destruct (to_move keys_to_move (st_heap st !!! r)); [|done].
  destruct prefixes; simpl; [|done]. apply length_insert.
Qed.

Lemma entry_loop_cons (r : ref) (rs : list ref) (st : loop_state) :
  entry_loop keys_to_move prefixes (r :: rs) st
  = entry_loop keys_to_move prefixes rs (loop_body keys_to_move prefixes st r).
Proof. done. Qed.

(** The loop over distinct references, in one statement: which
    references end in which list, what is printed, and the heap. *)
Lemma entry_loop_spec (rs : list ref) : ∀ st : loop_state,
  NoDup rs →
  let h := st_heap st in
  let st' := entry_loop keys_to_move prefixes rs st in
  moved_entries st'
    = moved_entries st ++ filter (λ r, to_move keys_to_move (h !!! r)) rs
  ∧ remaining_entries st'
    = remaining_entries st ++ filter (λ r, ¬ to_move keys_to_move (h !!! r)) rs
  ∧ st_printed st'
    = st_printed st ++
      rename_lines prefixes
        ((λ r, h !!! r) <$> filter (λ r, to_move keys_to_move (h !!! r)) rs)
  ∧ length (st_heap st') = length h
  ∧ ∀ r, st_heap st' !!! r =
         if decide (r ∈ rs ∧ to_move keys_to_move (h !!! r))
         then rename_entry prefixes (h !!! r) else h !!! r.
Proof.
  induction rs as [|r rs IH]; intros st Hnd; simpl.
  - rewrite !app_nil_r. unfold rename_lines. destruct prefixes as [[??]|]; simpl;
      rewrite ?app_nil_r; repeat split; try done;
      intros r; case_decide as H; try done; destruct H as [H _]; inversion H.
  - apply NoDup_cons in Hnd as [Hr Hnd].
    fold (entry_loop keys_to_move prefixes rs (loop_body keys_to_move prefixes st r)).
    destruct (IH (loop_body keys_to_move prefixes st r) Hnd)
      as (Hm & Hrem & Hp & Hlen & Hheap); clear IH.
    assert (Hsame : ∀ x, x ∈ rs →
      st_heap (loop_body keys_to_move prefixes st r) !!! x = st_heap st !!! x).
    { intros x Hx. apply loop_body_heap_other. intros ->. done. }
    rewrite (filter_ext_in _ (λ x, to_move keys_to_move (st_heap st !!! x))) in Hm, Hp
      by (intros x Hx; by rewrite Hsame).
    rewrite (filter_ext_in _ (λ x, ¬ to_move keys_to_move (st_heap st !!! x))) in Hrem
      by (intros x Hx; by rewrite Hsame).
    assert (Hvals :
      (λ x, st_heap (loop_body keys_to_move prefixes st r) !!! x)
        <$> filter (λ x, to_move keys_to_move (st_heap st !!! x)) rs
      = (λ x, st_heap st !!! x)
        <$> filter (λ x, to_move keys_to_move (st_heap st !!! x)) rs).
    { apply list_fmap_ext. intros i x Hx. apply Hsame.
      apply list_elem_of_lookup_2 in Hx. by apply list_elem_of_filter in Hx as [_ ?]. }
    rewrite Hvals in Hp. clear Hvals.
    rewrite Hm, Hrem, Hp, Hlen, loop_body_heap_length. clear Hm Hrem Hp Hlen.
    rewrite !filter_cons.
    assert (Hheap' : ∀ r0, st_heap (entry_loop keys_to_move prefixes rs
                             (loop_body keys_to_move prefixes st r)) !!! r0 =
       if decide (r0 ∈ r :: rs ∧ to_move keys_to_move (st_heap st !!! r0))
       then rename_entry prefixes (st_heap st !!! r0) else st_heap st !!! r0).
    { intros r0. rewrite Hheap. destruct (decide (r0 = r)) as [->|Hne].
      - rewrite loop_body_heap_same.
        destruct (to_move keys_to_move (st_heap st !!! r)) eqn:E.
        + rewrite decide_False by tauto. rewrite decide_True; [done|].
          split; [apply list_elem_of_here|done].
        + rewrite decide_False by tauto. rewrite decide_False; [done|].
          intros [_ []].
      - rewrite loop_body_heap_other by done.
        repeat case_decide; try done.
        + exfalso. apply H0. destruct H as [H1 H2].
          split; [by apply list_elem_of_further|done].
        + exfalso. apply H. destruct H0 as [H1 H2]. split; [|done].
          apply elem_of_cons in H1 as [->|]; done. }
    clear Hheap. split_and!; [| | | | exact Hheap'];
      rewrite ?loop_body_eq;
      destruct (to_move keys_to_move (st_heap st !!! r)) eqn:E; simpl;
      rewrite <- ?app_assoc; try done.
    by rewrite <- rename_lines_app.
Qed.

End LoopFacts.

(** ** The heap: reading through references *)

Section HeapFacts.

Context {Payload Annotation : Type}.
#[local] Abbreviation Entry := (Entry Payload Annotation).
#[local] Abbreviation loop_state := (loop_state Payload Annotation).

Lemma deref_app (h : list Entry) (rs1 rs2 : list ref) :
  deref h (rs1 ++ rs2) = deref h rs1 ++ deref h rs2.
Proof. apply fmap_app. Qed.

(** Allocation leaves the objects that exist where they are. *)
Lemma deref_app_l (h h' : list Entry) (rs : list ref) :
  Forall (λ r, r < length h) rs → deref (h ++ h') rs = deref h rs.
Proof.
  intros Hrs. apply list_fmap_ext. intros i r Hr.
  rewrite Forall_lookup in Hrs. specialize (Hrs i r Hr).
  rewrite !list_lookup_total_alt. by rewrite lookup_app_l.
Qed.

(** The new objects are read back at their new addresses. *)
Lemma deref_alloc (h es : list Entry) :
  deref (alloc h es).1 (alloc h es).2 = es.
Proof.
  unfold alloc, deref. simpl. revert h.
  induction es as [|e es IH]; intros h; [done|].
  simpl. f_equal.
  - rewrite list_lookup_total_alt, lookup_app_r by lia.
    by rewrite Nat.sub_diag.
  - specialize (IH (h ++ [e])). rewrite <- app_assoc, length_app in IH.
    simpl in IH. rewrite Nat.add_1_r in IH. exact IH.
Qed.

Lemma deref_filter_seq (P : Entry → Prop) `{!∀ e, Decision (P e)} (h : list Entry) :
  deref h (filter (λ r, P (h !!! r)) (seq 0 (length h))) = filter P h.
Proof.
  enough (∀ pre : list Entry,
    deref (pre ++ h) (filter (λ r, P ((pre ++ h) !!! r)) (seq (length pre) (length h)))
    = filter P h) as Hgen by exact (Hgen []).
  induction h as [|e h IH]; intros pre; [done|].
  simpl. rewrite !filter_cons.
  assert ((pre ++ e :: h) !!! length pre = e) as He.
  { rewrite list_lookup_total_alt, lookup_app_r by lia. by rewrite Nat.sub_diag. }
  specialize (IH (pre ++ [e])). rewrite <- app_assoc, length_app in IH.
  simpl in IH. rewrite Nat.add_1_r in IH.
  rewrite He. destruct (decide (P e)); [|done].
  unfold deref in *. rewrite fmap_cons, He. by f_equal.
Qed.

Lemma last_seq (a n : nat) : last (seq a (S n)) = Some (a + n).
Proof.
  rewrite last_lookup, length_seq. apply lookup_seq_lt. simpl. lia.
Qed.

(** The test of lines 90-92 reads the last entry of the destination. *)
Lemma needs_separator_alloc (h dest : list Entry) :
  needs_separator (alloc h dest).1 (alloc h dest).2 = wants_separator dest.
Proof.
  unfold needs_separator, wants_separator. simpl.
  destruct dest as [|e dest _] using rev_ind; [done|].
  rewrite length_app. simpl. rewrite Nat.add_1_r, last_seq, last_snoc.
  rewrite list_lookup_total_alt, lookup_app_r by lia.
  replace (length h + length dest - length h) with (length dest) by lia.
  rewrite lookup_app_r by lia. by rewrite Nat.sub_diag.
Qed.

(** Lines 88-95 on the values: the entries of the destination, the
    separator when there is one, the moved entries. *)
Lemma merge_destination_values (h dest : list Entry) (moved : list ref) :
  Forall (λ r, r < length h) moved →
  let h1 := (alloc h dest).1 in
  let body := (alloc h dest).2 in
  deref (merge_destination h1 body moved).1 (merge_destination h1 body moved).2
    = merged_values dest (deref h moved)
  ∧ ∀ rs, Forall (λ r, r < length h) rs →
          deref (merge_destination h1 body moved).1 rs = deref h rs.
Proof.
  intros Hmoved h1 body. unfold merge_destination, merged_values, separator.
  subst h1 body. rewrite needs_separator_alloc.
  assert (Hd := deref_alloc h dest). simpl in Hd.
  destruct (wants_separator dest); simpl.
  - split.
    + rewrite !deref_app, <- (app_assoc (deref _ _)). f_equal.
      * rewrite deref_app_l; [done|].
        apply Forall_forall. intros r Hr%elem_of_seq. rewrite length_app. lia.
      * change (deref ?a [?r] ++ ?l) with (a !!! r :: l). f_equal.
        -- rewrite list_lookup_total_alt, lookup_app_r by lia.
           by rewrite Nat.sub_diag.
        -- rewrite <- app_assoc. by apply deref_app_l.
    + intros rs Hrs. rewrite <- app_assoc. by apply deref_app_l.
  - split.
    + rewrite deref_app, Hd. f_equal. by apply deref_app_l.
    + intros rs Hrs. by apply deref_app_l.
Qed.

Variable keys_to_move : gset string.
Variable prefixes : option (string * string).

(** The loop of the program, over a body that was just parsed: the
    values in the two lists, what was printed, and where the references
    point. *)
Lemma entry_loop_values (es : list Entry) :
  let st := entry_loop keys_to_move prefixes (alloc [] es).2 (loop_init (alloc [] es).1) in
  deref (st_heap st) (moved_entries st) = moved_values keys_to_move prefixes es
  ∧ deref (st_heap st) (remaining_entries st) = remaining_values keys_to_move es
  ∧ st_printed st
    = rename_lines prefixes (filter (λ e, to_move keys_to_move e) es)
  ∧ Forall (λ r, r < length (st_heap st)) (moved_entries st)
  ∧ Forall (λ r, r < length (st_heap st)) (remaining_entries st).
Proof.
  simpl.
  destruct (entry_loop_spec keys_to_move prefixes (seq 0 (length es)) (loop_init es)
              (NoDup_seq 0 (length es))) as (Hm & Hrem & Hp & Hlen & Hheap).
  simpl in *. rewrite Hm, Hrem, Hp, Hlen. clear Hm Hrem Hp Hlen.
  split_and!.
  - unfold moved_values. rewrite <- (deref_filter_seq (λ e, to_move keys_to_move e) es).
    unfold deref. rewrite <- list_fmap_compose. apply list_fmap_ext.
    intros i r Hr. apply list_elem_of_lookup_2, list_elem_of_filter in Hr.
    simpl. rewrite Hheap. by rewrite decide_True by tauto.
  - unfold remaining_values.
    rewrite <- (deref_filter_seq (λ e, ¬ to_move keys_to_move e) es).
    apply list_fmap_ext.
    intros i r Hr. apply list_elem_of_lookup_2, list_elem_of_filter in Hr.
    rewrite Hheap. by rewrite decide_False by tauto.
  - f_equal. exact (deref_filter_seq (λ e, to_move keys_to_move e) es).
  - apply Forall_forall. intros r [_ Hr%elem_of_seq]%list_elem_of_filter. lia.
  - apply Forall_forall. intros r [_ Hr%elem_of_seq]%list_elem_of_filter. lia.
Qed.

End HeapFacts.

(** ** Running the program *)

Section RunFacts.

Context {Payload Annotation : Type}.
#[local] Abbreviation Entry := (Entry Payload Annotation).

Variable parse : string → list Entry.
Variable serialize : list Entry → string.

Lemma bind_run {A B : Type} (m : M A) (f : A → M B) (w : world) :
  (m ≫= f) w =
    match m w with
    | (inr a, w') => f a w'
    | (inl e, w') => (inl e, w')
    end.
Proof. done. Qed.

Ltac run_all :=
  repeat (rewrite bind_run; unfold print, write_text, emit; simpl).

Ltac norm_trace := repeat (rewrite <- app_assoc; simpl).

Lemma emit_emit_trace (w : world) (evs : list event) (e : event) :
  emit e {| files := files w; listing := listing w; trace := trace w ++ evs |}
  = {| files := files w; listing := listing w; trace := trace w ++ evs ++ [e] |}.
Proof. unfold emit. simpl. by rewrite <- app_assoc. Qed.

Lemma for_each_print (lines : list string) (w : world) :
  for_each lines print w
  = (inr tt, {| files := files w; listing := listing w;
                trace := trace w ++ (EvPrint <$> lines) |}).
Proof.
  revert w. induction lines as [|l lines IH]; intros w; simpl.
  - rewrite app_nil_r. by destruct w.
  - rewrite bind_run. unfold print at 1. rewrite IH. simpl.
    by rewrite <- app_assoc.
Qed.

Section Dir.

Variables source_filename destination_filename : string.
Variable rename_keys : bool.
Variable keys_to_move : gset string.

#[local] Abbreviation process :=
  (process_dir parse serialize source_filename destination_filename rename_keys
     keys_to_move).

(** Line 49: no source file, the directory is skipped. *)
Lemma process_dir_skip (w : world) (lang_dir : string) :
  files w !! Py.join lang_dir source_filename = None →
  process lang_dir w
  = (inr tt,
     {| files := files w; listing := listing w;
        trace := trace w ++
          [EvExists (Py.join lang_dir source_filename) false;
           EvPrint (skipping_line source_filename lang_dir)] |}).
Proof.
  intros Hnone. unfold process_dir.
  rewrite bind_run. unfold path_exists. rewrite Hnone.
  rewrite bool_decide_eq_false_2 by (by intros [? ?]).
  simpl. unfold print, emit. simpl. by rewrite <- app_assoc.
Qed.

(** Lines 53-109: the source file is there, the directory is processed. *)
Lemma process_dir_found (w : world) (lang_dir : string) (content : string) :
  files w !! Py.join lang_dir source_filename = Some content →
  process lang_dir w
  = (inr tt,
     {| files := dir_files parse serialize source_filename destination_filename
                   rename_keys keys_to_move w lang_dir;
        listing := listing w;
        trace := trace w ++
                 dir_events parse serialize source_filename destination_filename
                   rename_keys keys_to_move w lang_dir |}).
Proof.
  intros Hsrc. unfold process_dir.
  rewrite bind_run. unfold path_exists at 1. rewrite Hsrc.
  rewrite bool_decide_eq_true_2 by eauto. change (negb true) with false. cbv iota zeta.
  rewrite bind_run. unfold print at 1.
  rewrite bind_run. unfold read_text at 1. simpl files. rewrite Hsrc.
  unfold dir_files, dir_events, dir_merged, dir_moved, dir_remaining, entries_at.
  rewrite Hsrc.
  set (es := parse (Py.universal_newlines content)).
  destruct (entry_loop_values keys_to_move
              (prefixes source_filename destination_filename rename_keys) es)
    as (Hmv & Hrem & Hpr & Hmr & Hrr).
  change (alloc [] es) with ((es, seq 0 (length es))) in *. cbv iota zeta beta.
  simpl fst in *. simpl snd in *.
  set (st := entry_loop keys_to_move
               (prefixes source_filename destination_filename rename_keys)
               (seq 0 (length es)) (loop_init es)) in *.
  rewrite bind_run, for_each_print. cbv iota beta. rewrite Hpr.
  rewrite bind_run. unfold load_destination. rewrite bind_run.
  unfold path_exists at 1. simpl files.
  rewrite <- Hmv, <- Hrem.
  destruct (files w !! Py.join lang_dir destination_filename) as [dc|] eqn:Hdst.
  - rewrite bool_decide_eq_true_2 by eauto. cbv iota zeta.
    rewrite bind_run. unfold read_text at 1. simpl files. rewrite Hdst.
    unfold mret, M_ret. cbv beta iota.
    destruct (merge_destination_values (st_heap st)
                (parse (Py.universal_newlines dc)) (moved_entries st) Hmr)
      as [Hmerge Hkeep].
    specialize (Hkeep _ Hrr).
    assert (Hkeep1 := deref_app_l (st_heap st) (parse (Py.universal_newlines dc))
                        _ Hrr).
    destruct (moved_entries st) as [|r rs] eqn:Em.
    + rewrite !bool_decide_eq_true_2 by eauto.
      unfold alloc in *. cbv iota zeta beta.
      run_all. rewrite Hkeep1. by norm_trace.
    + rewrite !bool_decide_eq_true_2 by eauto.
      unfold alloc in *. simpl in Hmerge, Hkeep.
      destruct (merge_destination _ _ _) as [h2 merged]. simpl in Hmerge, Hkeep.
      cbv iota zeta beta.
      run_all. rewrite Hmerge, Hkeep.
      replace (length (deref (st_heap st) rs)) with (length rs)
        by (symmetry; apply length_fmap).
      by norm_trace.
  - rewrite !bool_decide_eq_false_2
      by (simpl; rewrite ?Hdst; apply is_Some_None).
    cbv iota zeta. unfold mret, M_ret. cbv beta iota.
    destruct (merge_destination_values (st_heap st) [] (moved_entries st) Hmr)
      as [Hmerge Hkeep].
    specialize (Hkeep _ Hrr).
    unfold alloc in *. simpl in Hmerge, Hkeep. rewrite app_nil_r in Hmerge, Hkeep.
    destruct (moved_entries st) as [|r rs] eqn:Em.
    + run_all. by norm_trace.
    + unfold merge_destination, needs_separator, merged_values, separator.
      simpl. run_all.
      replace (length (deref (st_heap st) rs)) with (length rs)
        by (symmetry; apply length_fmap).
      by norm_trace.
Qed.

End Dir.

End RunFacts.

(** ** The partition of the entries (lines 61-77) *)

Section Partition.

Context {Payload Annotation : Type}.
#[local] Abbreviation Entry := (Entry Payload Annotation).

Variable parse : string → list Entry.

(** C1. The two lists the loop builds split the body of the parsed
    source resource: taken together they are a rearrangement of the body
    without repetition, every entry of the body is in one of them and
    none is in both, and nothing else is in them. The entries are the
    objects of the body themselves: a remaining entry is as it was
    parsed, and a moved entry differs at most by its identifier. *)
Theorem partition_complete_disjoint
    (keys_to_move : gset string) (prefixes : option (string * string))
    (source_content : string) :
  let h0 := (alloc [] (parse source_content)).1 in
  let source_body := (alloc [] (parse source_content)).2 in
  let st := entry_loop keys_to_move prefixes source_body (loop_init h0) in
  moved_entries st ++ remaining_entries st ≡ₚ source_body
  ∧ NoDup (moved_entries st ++ remaining_entries st)
  ∧ (∀ entry, entry ∈ source_body ↔
       entry ∈ moved_entries st ∨ entry ∈ remaining_entries st)
  ∧ (∀ entry, ¬ (entry ∈ moved_entries st ∧ entry ∈ remaining_entries st))
  ∧ length (moved_entries st) + length (remaining_entries st)
    = length (parse source_content)
  ∧ (∀ entry, entry ∈ remaining_entries st → st_heap st !!! entry = h0 !!! entry)
  ∧ (∀ entry, entry ∈ moved_entries st →
       st_heap st !!! entry = rename_entry prefixes (h0 !!! entry)).
Proof.
  intros h0 source_body st. subst h0 source_body st. simpl.
  set (es := parse source_content).
  destruct (entry_loop_spec keys_to_move prefixes (seq 0 (length es)) (loop_init es)
              (NoDup_seq 0 (length es))) as (Hm & Hrem & _ & _ & Hheap).
  simpl in *.
  set (st := entry_loop keys_to_move prefixes (seq 0 (length es)) (loop_init es)) in *.
  assert (Hperm : moved_entries st ++ remaining_entries st ≡ₚ seq 0 (length es)).
  { rewrite Hm, Hrem. apply filter_app_complement. }
  assert (Hnd : NoDup (moved_entries st ++ remaining_entries st)).
  { rewrite Hperm. apply NoDup_seq. }
  split_and!; try done.
  - intros entry. rewrite <- Hperm, elem_of_app. done.
  - intros entry [H1 H2]. apply NoDup_app in Hnd as (_ & Hdis & _).
    by apply (Hdis entry).
  - rewrite <- length_app, Hperm. apply length_seq.
  - intros entry Hin. rewrite Hrem in Hin.
    apply list_elem_of_filter in Hin as [Hno _].
    rewrite Hheap. by rewrite decide_False by tauto.
  - intros entry Hin. rewrite Hm in Hin.
    apply list_elem_of_filter in Hin as [Hyes Hs].
    rewrite Hheap. by rewrite decide_True by tauto.
Qed.

(** C2. An entry of the parsed source resource is put in the moved list
    exactly when it is a message or a term whose identifier is in the key
    set; any other entry of the body, a junk entry among them, is put in
    the remaining list. *)
Theorem moved_iff_key_listed
    (keys_to_move : gset string) (prefixes : option (string * string))
    (source_content : string) (entry : ref) :
  let h0 := (alloc [] (parse source_content)).1 in
  let source_body := (alloc [] (parse source_content)).2 in
  let st := entry_loop keys_to_move prefixes source_body (loop_init h0) in
  let listed :=
    ∃ id rest, (h0 !!! entry = Message id rest ∨ h0 !!! entry = Term id rest)
               ∧ id ∈ keys_to_move in
  (entry ∈ moved_entries st ↔ entry ∈ source_body ∧ listed)
  ∧ (entry ∈ remaining_entries st ↔ entry ∈ source_body ∧ ¬ listed)
  ∧ (entry ∈ source_body ∧ is_junk (h0 !!! entry) → entry ∈ remaining_entries st).
Proof.
  intros h0 source_body st listed. subst h0 source_body st listed. simpl.
  set (es := parse source_content).
  destruct (entry_loop_spec keys_to_move prefixes (seq 0 (length es)) (loop_init es)
              (NoDup_seq 0 (length es))) as (Hm & Hrem & _).
  simpl in *. rewrite Hm, Hrem. clear Hm Hrem.
  assert (Htest : to_move keys_to_move (es !!! entry) ↔
    ∃ id rest, (es !!! entry = Message id rest ∨ es !!! entry = Term id rest)
               ∧ id ∈ keys_to_move).
  { unfold to_move. destruct (es !!! entry) as [id rest|id rest| | | |]; simpl;
      rewrite ?bool_decide_spec.
    - split; [intros Hk; exists id, rest; eauto|].
      intros (i & r & [[= -> ->]|[=]] & Hk); done.
    - split; [intros Hk; exists id, rest; eauto|].
      intros (i & r & [[=]|[= -> ->]] & Hk); done.
    - split; [done|]. intros (i & r & [[=]|[=]] & _).
    - split; [done|]. intros (i & r & [[=]|[=]] & _).
    - split; [done|]. intros (i & r & [[=]|[=]] & _).
    - split; [done|]. intros (i & r & [[=]|[=]] & _). }
  rewrite !list_elem_of_filter, Htest. split_and!; [tauto | tauto |].
  intros [Hin Hjunk]. split; [|done].
  intros (i & r & [Heq|Heq] & _); rewrite Heq in Hjunk; done.
Qed.

(** C3. With renaming enabled, the prefixes are the two file names
    without their extensions, and the identifier of every moved entry
    becomes its old identifier in which the leftmost occurrence of the
    source prefix is replaced by the destination prefix, the rest of the
    entry being kept; an identifier in which the source prefix does not
    occur is kept as it is. With [common.ftl] and [new_component.ftl],
    [common-button-label] becomes [new_component-button-label]. *)
Theorem rename_first_occurrence
    (keys_to_move : gset string) (source_filename destination_filename : string)
    (source_content : string) :
  let source_prefix := (Py.splitext source_filename).1 in
  let destination_prefix := (Py.splitext destination_filename).1 in
  let h0 := (alloc [] (parse source_content)).1 in
  let source_body := (alloc [] (parse source_content)).2 in
  let st := entry_loop keys_to_move
              (prefixes source_filename destination_filename true)
              source_body (loop_init h0) in
  (∀ entry, entry ∈ moved_entries st →
     ∃ old_id,
       entry_id (h0 !!! entry) = Some old_id
       ∧ st_heap st !!! entry
         = set_id (h0 !!! entry) (Py.replace1 source_prefix destination_prefix old_id)
       ∧ entry_id (st_heap st !!! entry)
         = Some (Py.replace1 source_prefix destination_prefix old_id))
  ∧ (∀ pre post,
       (∀ pre', occurs_after source_prefix (pre +:+ source_prefix +:+ post) pre' →
                String.length pre ≤ String.length pre') →
       Py.replace1 source_prefix destination_prefix (pre +:+ source_prefix +:+ post)
       = pre +:+ destination_prefix +:+ post)
  ∧ (∀ old_id,
       (∀ pre, ¬ occurs_after source_prefix old_id pre) →
       Py.replace1 source_prefix destination_prefix old_id = old_id)
  ∧ prefixes "common.ftl" "new_component.ftl" true = Some ("common", "new_component")
  ∧ Py.replace1 "common" "new_component" "common-button-label"
    = "new_component-button-label".
Proof.
  intros sp dp h0 source_body st.
  split_and!; [| apply replace1_first | apply replace1_absent | done | done].
  intros entry Hin. subst h0 source_body st. simpl in *.
  set (es := parse source_content) in *.
  destruct (entry_loop_spec keys_to_move
              (prefixes source_filename destination_filename true)
              (seq 0 (length es)) (loop_init es) (NoDup_seq 0 (length es)))
    as (Hm & _ & _ & _ & Hheap).
  simpl in *. rewrite Hm in Hin.
  apply list_elem_of_filter in Hin as [Hyes Hs].
  rewrite Hheap. rewrite decide_True by tauto.
  unfold to_move in Hyes.
  destruct (entry_id (es !!! entry)) as [old_id|] eqn:Hid; [|done].
  exists old_id. subst sp dp.
  split_and!; [done | done |].
  by destruct (es !!! entry).
Qed.

End Partition.

(** ** One language directory (lines 46-109) *)

Section Directory.

Context {Payload Annotation : Type}.
#[local] Abbreviation Entry := (Entry Payload Annotation).

Variable parse : string → list Entry.
Variable serialize : list Entry → string.
Variables source_filename destination_filename : string.
Variable rename_keys : bool.
Variable keys_to_move : gset string.

#[local] Abbreviation process :=
  (process_dir parse serialize source_filename destination_filename rename_keys
     keys_to_move).
#[local] Abbreviation the_prefixes :=
  (prefixes source_filename destination_filename rename_keys).

(** Membership in a list of events that is written out. *)
Ltac in_events :=
  repeat (rewrite elem_of_cons || rewrite elem_of_app); tauto.

Ltac split_events H :=
  repeat (rewrite elem_of_cons in H || rewrite elem_of_app in H
          || rewrite elem_of_nil in H);
  destruct_or?; try (exfalso; exact H).

Lemma separator_cases (destination : list Entry) :
  (separator destination = [blank_line_junk] ∨ separator destination = [])
  ∧ (separator destination = [blank_line_junk] ↔
     destination ≠ [] ∧ ∀ e, last destination = Some e → is_junk e = false).
Proof.
  unfold separator, wants_separator.
  destruct destination as [|e0 d _] using rev_ind.
  - simpl. split; [by right|]. split; [done|]. by intros [? _].
  - rewrite last_snoc. destruct (is_junk e0) eqn:E; simpl.
    + split; [by right|]. split; [done|]. intros [_ H].
      specialize (H e0 eq_refl). congruence.
    + split; [by left|]. split; [|done]. intros _. split.
      * by destruct d.
      * by intros e [= <-].
Qed.

Lemma process_dir_files (w : world) (lang_dir content : string) :
  files w !! Py.join lang_dir source_filename = Some content →
  (process lang_dir w).1 = inr tt
  ∧ files (process lang_dir w).2
    = dir_files parse serialize source_filename destination_filename rename_keys
        keys_to_move w lang_dir
  ∧ trace (process lang_dir w).2
    = trace w ++ dir_events parse serialize source_filename destination_filename
                   rename_keys keys_to_move w lang_dir.
Proof. intros Hsrc. by rewrite (process_dir_found _ _ _ _ _ _ _ _ _ Hsrc). Qed.

(** C4. In a directory that is processed, the destination receives its
    own entries, then the blank-line marker, then the moved entries in
    the order of the source, and the marker is there exactly when there
    are moved entries, the destination has entries and the last of them
    is not junk; when nothing is moved, nothing is appended and the
    destination is not written. *)
Theorem separator_iff_and_append_order (w : world) (lang_dir content : string) :
  files w !! Py.join lang_dir source_filename = Some content →
  let source_file := Py.join lang_dir source_filename in
  let destination_file := Py.join lang_dir destination_filename in
  let es := parse (Py.universal_newlines content) in
  let destination := entries_at parse w destination_file in
  let moved := rename_entry the_prefixes <$> filter (λ e, to_move keys_to_move e) es in
  let remaining := filter (λ e, ¬ to_move keys_to_move e) es in
  let marker :=
    match moved with
    | [] => []
    | _ :: _ => separator destination
    end in
  (marker = [blank_line_junk] ∨ marker = [])
  ∧ (marker = [blank_line_junk] ↔
     moved ≠ [] ∧ destination ≠ []
     ∧ ∀ e, last destination = Some e → is_junk e = false)
  ∧ files (process lang_dir w).2
    = <[source_file := serialize remaining]>
        (match moved with
         | [] => files w
         | _ :: _ =>
             <[destination_file := serialize (destination ++ marker ++ moved)]> (files w)
         end)
  ∧ (moved ≠ [] →
     ∃ events,
       trace (process lang_dir w).2 = trace w ++ events
       ∧ EvWrite destination_file (serialize (destination ++ marker ++ moved))
         ∈ events).
Proof.
  intros Hsrc. cbv zeta.
  destruct (process_dir_files w lang_dir content Hsrc) as (_ & Hfiles & Htrace).
  rewrite Hfiles, Htrace. clear Hfiles Htrace.
  unfold dir_files, dir_events, dir_merged, dir_moved, dir_remaining, merged_values,
    moved_values, remaining_values, entries_at.
  rewrite Hsrc.
  set (es := parse (Py.universal_newlines content)).
  set (destination :=
         match files w !! Py.join lang_dir destination_filename with
         | Some c => parse (Py.universal_newlines c)
         | None => []
         end).
  set (moved := rename_entry the_prefixes <$> filter (λ e, to_move keys_to_move e) es).
  destruct (separator_cases destination) as [Hcases Hiff].
  destruct moved as [|m ms] eqn:Em.
  - split_and!; [by right | | done | done].
    split; [done|]. by intros [? _].
  - split_and!; [done | | done |].
    + rewrite Hiff. split; [intros [? ?]; done | intros (_ & ? & ?); done].
    + intros _. eexists. split; [reflexivity|]. in_events.
Qed.

(** C5. In a directory that is processed, the source file is left with
    the serialization of the entries that are not moved, in the order
    they had; the moved entries keep the order they had in the source;
    when something is moved to a destination that is another file, that
    file gets its former entries first and the moved entries after them;
    and no other file changes. With the keys a, b and c in the source and
    b alone in the key list, a and c remain, in this order, and b is
    moved. *)
Theorem order_and_untouched_content (w : world) (lang_dir content : string) :
  files w !! Py.join lang_dir source_filename = Some content →
  let source_file := Py.join lang_dir source_filename in
  let destination_file := Py.join lang_dir destination_filename in
  let es := parse (Py.universal_newlines content) in
  let destination := entries_at parse w destination_file in
  let moved := rename_entry the_prefixes <$> filter (λ e, to_move keys_to_move e) es in
  let remaining := filter (λ e, ¬ to_move keys_to_move e) es in
  let w' := (process lang_dir w).2 in
  (process lang_dir w).1 = inr tt
  ∧ files w' !! source_file = Some (serialize remaining)
  ∧ remaining `sublist_of` es
  ∧ moved `sublist_of` (rename_entry the_prefixes <$> es)
  ∧ (moved ≠ [] → source_file ≠ destination_file →
     ∃ marker,
       (marker = [] ∨ marker = [blank_line_junk])
       ∧ files w' !! destination_file
         = Some (serialize (destination ++ marker ++ moved)))
  ∧ (∀ path, path ≠ source_file → path ≠ destination_file →
       files w' !! path = files w !! path)
  ∧ (∀ x y z : Payload,
       let abc : list Entry := [Message "a" x; Message "b" y; Message "c" z] in
       remaining_values {["b"]} abc = [Message "a" x; Message "c" z]
       ∧ moved_values {["b"]} None abc = [Message "b" y]).
Proof.
  intros Hsrc. cbv zeta.
  destruct (process_dir_files w lang_dir content Hsrc) as (Hok & Hfiles & _).
  rewrite Hfiles. clear Hfiles.
  unfold dir_files, dir_merged, dir_moved, dir_remaining, merged_values,
    moved_values, remaining_values, entries_at.
  rewrite Hsrc.
  set (es := parse (Py.universal_newlines content)).
  set (destination :=
         match files w !! Py.join lang_dir destination_filename with
         | Some c => parse (Py.universal_newlines c)
         | None => []
         end).
  set (moved := rename_entry the_prefixes <$> filter (λ e, to_move keys_to_move e) es).
  split_and!.
  - done.
  - apply lookup_insert_eq.
  - apply sublist_filter.
  - apply fmap_sublist, sublist_filter.
  - intros Hmoved Hne. exists (separator destination). split.
    + destruct (separator_cases destination) as [[?|?] _]; [by right|by left].
    + rewrite lookup_insert_ne by done.
      destruct moved; [done|]. apply lookup_insert_eq.
  - intros path Hs Hd. rewrite lookup_insert_ne by done.
    destruct moved; [done|]. by rewrite lookup_insert_ne.
  - intros x y z. by vm_compute.
Qed.

(** C8. When the destination file is not there and something is moved,
    the destination file is created, and what is written to it is the
    serialization of the moved entries, renamed when renaming is on, in
    the order of the source: no marker and nothing else. *)
Theorem missing_destination_is_created (w : world) (lang_dir content : string) :
  files w !! Py.join lang_dir source_filename = Some content →
  files w !! Py.join lang_dir destination_filename = None →
  moved_values keys_to_move the_prefixes (parse (Py.universal_newlines content)) ≠ [] →
  let destination_file := Py.join lang_dir destination_filename in
  let es := parse (Py.universal_newlines content) in
  let moved := rename_entry the_prefixes <$> filter (λ e, to_move keys_to_move e) es in
  let w' := (process lang_dir w).2 in
  (process lang_dir w).1 = inr tt
  ∧ files w' !! destination_file = Some (serialize moved)
  ∧ ∃ events,
      trace w' = trace w ++ events
      ∧ EvWrite destination_file (serialize moved) ∈ events
      ∧ ∀ text, EvWrite destination_file text ∈ events → text = serialize moved.
Proof.
  intros Hsrc Hdst Hmoved. cbv zeta.
  assert (Hne : Py.join lang_dir source_filename ≠ Py.join lang_dir destination_filename).
  { intros Heq. rewrite Heq in Hsrc. congruence. }
  destruct (process_dir_files w lang_dir content Hsrc) as (Hok & Hfiles & Htrace).
  rewrite Hfiles, Htrace. clear Hfiles Htrace.
  unfold dir_files, dir_events, dir_merged, dir_moved, dir_remaining, merged_values,
    separator, wants_separator, entries_at.
  rewrite Hsrc, Hdst. simpl last. cbv iota.
  unfold moved_values in *.
  set (es := parse (Py.universal_newlines content)) in *.
  set (moved := rename_entry the_prefixes <$> filter (λ e, to_move keys_to_move e) es) in *.
  destruct moved as [|m ms] eqn:Em; [done|].
  split_and!; [done| |].
  - rewrite lookup_insert_ne by done. apply lookup_insert_eq.
  - rewrite bool_decide_eq_false_2 by apply is_Some_None.
    eexists. split; [reflexivity|]. split.
    + in_events.
    + intros text Hin. split_events Hin; try done; try congruence.
      * apply list_elem_of_fmap in Hin as (l & ? & _). done.
      * by injection Hin as ->.
Qed.

Lemma moved_values_nil (es : list Entry) :
  moved_values keys_to_move the_prefixes es = [] →
  remaining_values keys_to_move es = es.
Proof.
  unfold moved_values, remaining_values. intros Hnil.
  apply fmap_nil_inv in Hnil.
  induction es as [|e es IH]; [done|].
  rewrite filter_cons in *. destruct (decide (to_move keys_to_move e)) as [|Hno]; [done|].
  rewrite decide_True by done. f_equal. by apply IH.
Qed.

(** A directory in which nothing is moved: the only write is the one of
    the source file. *)
Lemma process_dir_nothing_moved (w : world) (lang_dir content : string) :
  files w !! Py.join lang_dir source_filename = Some content →
  moved_values keys_to_move the_prefixes (parse (Py.universal_newlines content)) = [] →
  process lang_dir w
  = (inr tt,
     {| files := <[Py.join lang_dir source_filename :=
                     serialize (parse (Py.universal_newlines content))]> (files w);
        listing := listing w;
        trace := trace w ++
          [EvExists (Py.join lang_dir source_filename) true;
           EvPrint (processing_line (Py.join lang_dir source_filename));
           EvRead (Py.join lang_dir source_filename);
           EvExists (Py.join lang_dir destination_filename)
             (bool_decide (is_Some (files w !! Py.join lang_dir destination_filename)))]
          ++ (if bool_decide (is_Some (files w !! Py.join lang_dir destination_filename))
              then [EvRead (Py.join lang_dir destination_filename)] else [])
          ++ [EvPrint no_keys_found_line;
              EvWrite (Py.join lang_dir source_filename)
                (serialize (parse (Py.universal_newlines content)));
              EvPrint updated_line] |}).
Proof.
  intros Hsrc Hnil. rewrite (process_dir_found _ _ _ _ _ _ _ _ _ Hsrc).
  unfold dir_files, dir_events, dir_moved, dir_remaining, entries_at.
  rewrite Hsrc, Hnil, (moved_values_nil _ Hnil).
  assert (filter (λ e, to_move keys_to_move e) (parse (Py.universal_newlines content)) = [])
    as -> by (by apply fmap_nil_inv in Hnil).
  unfold rename_lines. destruct the_prefixes as [[??]|]; simpl; done.
Qed.

(** C10. In a directory that is processed and in which nothing is moved,
    the only file that is written is the source file, with the
    serialization of its remaining entries, which are all its entries;
    the destination file, when it is another file, is neither created
    nor changed, and no other file is. *)
Theorem no_match_leaves_destination (w : world) (lang_dir content : string) :
  files w !! Py.join lang_dir source_filename = Some content →
  moved_values keys_to_move the_prefixes (parse (Py.universal_newlines content)) = [] →
  let source_file := Py.join lang_dir source_filename in
  let destination_file := Py.join lang_dir destination_filename in
  let es := parse (Py.universal_newlines content) in
  let remaining := filter (λ e, ¬ to_move keys_to_move e) es in
  let w' := (process lang_dir w).2 in
  (process lang_dir w).1 = inr tt
  ∧ remaining = es
  ∧ files w' = <[source_file := serialize remaining]> (files w)
  ∧ (∃ events,
       trace w' = trace w ++ events
       ∧ EvWrite source_file (serialize remaining) ∈ events
       ∧ ∀ path text, EvWrite path text ∈ events →
           path = source_file ∧ text = serialize remaining)
  ∧ (destination_file ≠ source_file →
     files w' !! destination_file = files w !! destination_file)
  ∧ (∀ path, path ≠ source_file → files w' !! path = files w !! path).
Proof.
  intros Hsrc Hnil. cbv zeta.
  rewrite (process_dir_nothing_moved w lang_dir content Hsrc Hnil). simpl.
  assert (Hrem := moved_values_nil _ Hnil). unfold remaining_values in Hrem.
  rewrite Hrem.
  split_and!; try done.
  - eexists. split; [reflexivity|]. split.
    + in_events.
    + intros path text Hin. split_events Hin; try done.
      * destruct (bool_decide _); split_events Hin; done.
      * by injection Hin as -> ->.
  - intros Hne. by rewrite lookup_insert_ne.
  - intros path Hne. by rewrite lookup_insert_ne.
Qed.


(** C7. A directory without the source file: the turn prints the line
    that says so and does nothing else, no file is read or written, the
    files are as they were, and the loop goes on with the directories
    that follow from there. *)
Theorem missing_source_skips_directory (w : world) (lang_dir : string) :
  files w !! Py.join lang_dir source_filename = None →
  let skipped :=
    {| files := files w; listing := listing w;
       trace := trace w ++
         [EvExists (Py.join lang_dir source_filename) false;
          EvPrint (skipping_line source_filename lang_dir)] |} in
  process lang_dir w = (inr tt, skipped)
  ∧ (∀ others, for_each (lang_dir :: others) process w = for_each others process skipped)
  ∧ ∀ before w_start,
      for_each before process w_start = (inr tt, w) →
      ∀ others,
        for_each (before ++ lang_dir :: others) process w_start
        = for_each others process skipped.
Proof.
  intros Hnone skipped.
  assert (Hskip := process_dir_skip parse serialize source_filename destination_filename
                     rename_keys keys_to_move w lang_dir Hnone).
  fold skipped in Hskip. split_and!.
  - done.
  - intros others. simpl. by rewrite bind_run, Hskip.
  - intros before. induction before as [|d before IH]; intros w_start Hbefore others.
    + simpl in Hbefore. injection Hbefore as ->. simpl. by rewrite bind_run, Hskip.
    + simpl in *. rewrite bind_run in *.
      destruct (process d w_start) as [[e|[]] w_mid]; [done|].
      by apply IH.
Qed.

End Directory.

(** ** The whole run (lines 17-45) *)

Section WholeRun.

Context {Payload Annotation : Type}.
#[local] Abbreviation Entry := (Entry Payload Annotation).

Variable parse : string → list Entry.
Variable serialize : list Entry → string.
Variables base_dir strings_to_move_file source_filename destination_filename : string.
Variable rename_keys : bool.

#[local] Abbreviation run :=
  (move_and_rename_fluent_strings parse serialize base_dir strings_to_move_file
     source_filename destination_filename rename_keys).

(** A turn of the loop over the directories does not raise. *)
Lemma process_dir_returns (keys_to_move : gset string) (lang_dir : string) (w : world) :
  (process_dir parse serialize source_filename destination_filename rename_keys
     keys_to_move lang_dir w).1 = inr tt.
Proof.
  destruct (files w !! Py.join lang_dir source_filename) as [content|] eqn:Hsrc.
  - by rewrite (process_dir_found _ _ _ _ _ _ _ _ _ Hsrc).
  - by rewrite (process_dir_skip _ _ _ _ _ _ _ _ Hsrc).
Qed.

Lemma for_each_returns {A : Type} (body : A → M unit) (l : list A) :
  (∀ x w, (body x w).1 = inr tt) → ∀ w, (for_each l body w).1 = inr tt.
Proof.
  intros Hbody. induction l as [|x l IH]; intros w; [done|].
  simpl. rewrite bind_run. specialize (Hbody x w).
  destruct (body x w) as [[e|[]] w']; [done|]. apply IH.
Qed.

(** The function returns on every file system: no read fails, since each
    one is guarded by the test that the file exists. *)
Lemma run_returns (w : world) : (run w).1 = inr tt.
Proof.
  unfold move_and_rename_fluent_strings.
  rewrite bind_run. unfold path_exists at 1.
  destruct (files w !! strings_to_move_file) as [content|] eqn:Hk.
  - rewrite bool_decide_eq_true_2 by eauto. change (negb true) with false. cbv iota zeta.
    rewrite bind_run. unfold read_text at 1. simpl files. rewrite Hk.
    destruct (decide _); [done|].
    rewrite bind_run. unfold glob at 1. cbv iota zeta beta.
    destruct (listing _ _) as [|d ds]; [done|].
    apply for_each_returns. intros x w'. apply process_dir_returns.
  - by rewrite bool_decide_eq_false_2 by apply is_Some_None.
Qed.

(** C6. Without the key list, the run prints the error line and returns:
    the test for the key list is all it did, no directory was scanned,
    no file was read or written, the files are as they were. With a key
    list that names keys and a base directory without subdirectories,
    the run reads the key list, scans, prints the line that says so and
    returns: no file was written, the files are as they were. Whatever
    the key list, a run whose scan finds no subdirectory returns with
    the files as they were. *)
Theorem abort_without_key_list (w : world) :
  (files w !! strings_to_move_file = None →
   run w
   = (inr tt,
      {| files := files w; listing := listing w;
         trace := trace w ++
           [EvExists strings_to_move_file false;
            EvPrint (missing_list_line strings_to_move_file)] |}))
  ∧ (∀ content,
       files w !! strings_to_move_file = Some content →
       read_keys (Py.universal_newlines content) ≠ ∅ →
       listing w (Py.join base_dir "*/") = [] →
       run w
       = (inr tt,
          {| files := files w; listing := listing w;
             trace := trace w ++
               [EvExists strings_to_move_file true;
                EvRead strings_to_move_file;
                EvGlob (Py.join base_dir "*/");
                EvPrint (no_dirs_line base_dir)] |}))
  ∧ (listing w (Py.join base_dir "*/") = [] →
     (run w).1 = inr tt ∧ files (run w).2 = files w).
Proof.
  split_and!.
  - intros Hnone. unfold move_and_rename_fluent_strings.
    rewrite bind_run. unfold path_exists at 1. rewrite Hnone.
    rewrite bool_decide_eq_false_2 by apply is_Some_None.
    change (negb false) with true. cbv iota zeta.
    unfold print, emit. simpl. by rewrite <- app_assoc.
  - intros content Hk Hkeys Hscan. unfold move_and_rename_fluent_strings.
    rewrite bind_run. unfold path_exists at 1. rewrite Hk.
    rewrite bool_decide_eq_true_2 by eauto. change (negb true) with false. cbv iota zeta.
    rewrite bind_run. unfold read_text at 1. simpl files. rewrite Hk.
    rewrite decide_False by done.
    rewrite bind_run. unfold glob at 1.
    change (listing (emit _ (emit _ w))) with (listing w). rewrite Hscan.
    unfold print, emit. cbn [files listing trace]. by rewrite <- !app_assoc.
  - intros Hscan.
    enough (∃ events, run w = (inr tt, {| files := files w; listing := listing w;
                                          trace := events |})) as [events ->]
      by done.
    unfold move_and_rename_fluent_strings.
    rewrite bind_run. unfold path_exists at 1.
    destruct (files w !! strings_to_move_file) as [content|] eqn:Hk.
    + rewrite bool_decide_eq_true_2 by eauto. change (negb true) with false.
      cbv iota zeta.
      rewrite bind_run. unfold read_text at 1. simpl files. rewrite Hk.
      destruct (decide _); [eexists; reflexivity|].
      rewrite bind_run. unfold glob at 1.
      change (listing (emit _ (emit _ w))) with (listing w). rewrite Hscan.
      eexists; reflexivity.
    + rewrite bool_decide_eq_false_2 by apply is_Some_None. eexists; reflexivity.
Qed.

End WholeRun.

(** ** The model at work on concrete files *)

Section Concrete.

#[local] Abbreviation toy_dir :=
  (process_dir Toy.parse Toy.serialize "common.ftl" "new_component.ftl" false {["b"]}).

Example splitext_common : Py.splitext "common.ftl" = ("common", ".ftl").
Proof. reflexivity. Qed.

Example splitext_hidden : Py.splitext ".ftl" = (".ftl", EmptyString).
Proof. reflexivity. Qed.

Example splitext_dotted_directory : Py.splitext "a.b/c" = ("a.b/c", EmptyString).
Proof. reflexivity. Qed.

Example replace1_leftmost : Py.replace1 "ab" "X" "cabab" = "cXab".
Proof. reflexivity. Qed.

Example replace1_empty_prefix : Py.replace1 EmptyString "X" "abc" = "Xabc".
Proof. reflexivity. Qed.

Example join_directory : Py.join "loc/en/" "common.ftl" = "loc/en/common.ftl".
Proof. reflexivity. Qed.

Example read_keys_strips :
  read_keys ("b " +:+ Toy.nl +:+ Toy.nl +:+ " common-x") = {["b"; "common-x"]}.
Proof. by vm_compute. Qed.

(** The whole run on the tree of [Toy.fresh]: [b] goes to the new file,
    [a] and [c] stay, the directory without the source file is skipped. *)
Example run_fresh :
  let r := move_and_rename_fluent_strings Toy.parse Toy.serialize
             "loc" "keys.txt" "common.ftl" "new_component.ftl" false Toy.fresh in
  r.1 = inr tt
  ∧ files r.2 !! "loc/en/common.ftl" = Some ("a = 1" +:+ Toy.nl +:+ "c = 3" +:+ Toy.nl)
  ∧ files r.2 !! "loc/en/new_component.ftl" = Some ("b = 2" +:+ Toy.nl)
  ∧ files r.2 !! "loc/de/new_component.ftl" = None.
Proof. by vm_compute. Qed.

(** With renaming, the key takes the prefix of the destination. *)
Example run_rename :
  let w := {| files := {[ "keys.txt" := "common-button-label";
                          "loc/en/common.ftl" := "common-button-label = OK" +:+ Toy.nl ]};
              listing := Toy.scan; trace := [] |} in
  let r := move_and_rename_fluent_strings Toy.parse Toy.serialize
             "loc" "keys.txt" "common.ftl" "new_component.ftl" true w in
  files r.2 !! "loc/en/new_component.ftl"
  = Some ("new_component-button-label = OK" +:+ Toy.nl).
Proof. by vm_compute. Qed.

Lemma separator_iff_and_append_order_witness :
  files (toy_dir "loc/en/" Toy.with_destination).2
  = {[ "keys.txt" := "b" +:+ Toy.nl;
       "loc/en/common.ftl" := "a = 1" +:+ Toy.nl +:+ "c = 3" +:+ Toy.nl;
       "loc/en/new_component.ftl" := "x = 0" +:+ Toy.nl +:+ "b = 2" +:+ Toy.nl ]}.
Proof.
  destruct (separator_iff_and_append_order Toy.parse Toy.serialize
              "common.ftl" "new_component.ftl" false {["b"]}
              Toy.with_destination "loc/en/" Toy.abc) as (_ & _ & Hfiles & _).
  - by vm_compute.
  - rewrite Hfiles. by vm_compute.
Defined.

Lemma order_and_untouched_content_witness :
  files (toy_dir "loc/en/" Toy.with_destination).2 !! "loc/en/common.ftl"
  = Some ("a = 1" +:+ Toy.nl +:+ "c = 3" +:+ Toy.nl)
  ∧ files (toy_dir "loc/en/" Toy.with_destination).2 !! "keys.txt"
    = Some ("b" +:+ Toy.nl).
Proof.
  destruct (order_and_untouched_content Toy.parse Toy.serialize
              "common.ftl" "new_component.ftl" false {["b"]}
              Toy.with_destination "loc/en/" Toy.abc) as (_ & Hsrc & _ & _ & _ & Hother & _).
  - by vm_compute.
  - split.
    + refine (eq_trans Hsrc _). by vm_compute.
    + refine (eq_trans (Hother "keys.txt" _ _) _); by vm_compute.
Defined.

Lemma missing_destination_is_created_witness :
  files Toy.fresh !! "loc/en/new_component.ftl" = None
  ∧ files (toy_dir "loc/en/" Toy.fresh).2 !! "loc/en/new_component.ftl"
    = Some ("b = 2" +:+ Toy.nl).
Proof.
  destruct (missing_destination_is_created Toy.parse Toy.serialize
              "common.ftl" "new_component.ftl" false {["b"]}
              Toy.fresh "loc/en/" Toy.abc) as (_ & Hdst & _).
  - by vm_compute.
  - by vm_compute.
  - by vm_compute.
  - split; [by vm_compute|]. refine (eq_trans Hdst _). by vm_compute.
Defined.



Lemma no_match_leaves_destination_witness :
  files (process_dir Toy.parse Toy.serialize "common.ftl" "new_component.ftl" false
           {["q"]} "loc/en/" Toy.with_destination).2
  = files Toy.with_destination.
Proof.
  destruct (no_match_leaves_destination Toy.parse Toy.serialize
              "common.ftl" "new_component.ftl" false {["q"]}
              Toy.with_destination "loc/en/" Toy.abc) as (_ & _ & Hfiles & _).
  - by vm_compute.
  - by vm_compute.
  - rewrite Hfiles. by vm_compute.
Defined.

Lemma missing_source_skips_directory_witness :
  toy_dir "loc/de/" Toy.fresh
  = (inr tt,
     {| files := files Toy.fresh; listing := Toy.scan;
        trace := [EvExists "loc/de/common.ftl" false;
                  EvPrint "Skipping loc/de/: 'common.ftl' not found."] |}).
Proof.
  destruct (missing_source_skips_directory Toy.parse Toy.serialize
              "common.ftl" "new_component.ftl" false {["b"]}
              Toy.fresh "loc/de/") as (Hskip & _).
  - by vm_compute.
  - rewrite Hskip. reflexivity.
Defined.

Lemma abort_without_key_list_witness :
  move_and_rename_fluent_strings Toy.parse Toy.serialize
    "loc" "keys.txt" "common.ftl" "new_component.ftl" false Toy.no_key_list
  = (inr tt,
     {| files := files Toy.no_key_list; listing := Toy.scan;
        trace := [EvExists "keys.txt" false;
                  EvPrint "Error: The strings list file 'keys.txt' does not exist."] |})
  ∧ move_and_rename_fluent_strings Toy.parse Toy.serialize
      "loc" "keys.txt" "common.ftl" "new_component.ftl" false Toy.no_directories
    = (inr tt,
       {| files := files Toy.no_directories; listing := listing Toy.no_directories;
          trace := [EvExists "keys.txt" true; EvRead "keys.txt"; EvGlob "loc/*/";
                    EvPrint "No language directories found in 'loc'. Exiting."] |}).
Proof.
  split.
  - rewrite (proj1 (abort_without_key_list Toy.parse Toy.serialize
                      "loc" "keys.txt" "common.ftl" "new_component.ftl" false
                      Toy.no_key_list)); [reflexivity | by vm_compute].
  - rewrite (proj1 (proj2 (abort_without_key_list Toy.parse Toy.serialize
                      "loc" "keys.txt" "common.ftl" "new_component.ftl" false
                      Toy.no_directories)) ("b" +:+ Toy.nl));
      [reflexivity | by vm_compute | by vm_compute | reflexivity].
Defined.

End Concrete.

(** ** The key list and the strings of the program: further facts *)

Section KeyList.

Lemma append_assoc (a b c : string) : (a +:+ b) +:+ c = a +:+ b +:+ c.
Proof. induction a as [|x a IH]; [done|]. rewrite !append_cons. by f_equal. Qed.

Lemma rev_app_spec (s1 s2 : string) : String.rev_app s1 s2 = String.rev s1 +:+ s2.
Proof.
  unfold String.rev. revert s2. induction s1 as [|a s1 IH]; intros s2; [done|].
  simpl. rewrite IH, (IH (String a EmptyString)), append_assoc.
  by rewrite append_cons, append_nil.
Qed.

Lemma append_empty_r (a : string) : a +:+ EmptyString = a.
Proof. induction a as [|x a IH]; [done|]. rewrite append_cons. by f_equal. Qed.

Lemma rev_cons (a : ascii) (s : string) :
  String.rev (String a s) = String.rev s +:+ String a EmptyString.
Proof. unfold String.rev at 1. simpl. apply rev_app_spec. Qed.

Lemma rev_append (a b : string) : String.rev (a +:+ b) = String.rev b +:+ String.rev a.
Proof.
  induction a as [|x a IH].
  - by rewrite append_nil, append_empty_r.
  - by rewrite append_cons, !rev_cons, IH, append_assoc.
Qed.

Lemma rev_involutive (s : string) : String.rev (String.rev s) = s.
Proof.
  induction s as [|a s IH]; [done|].
  by rewrite rev_cons, rev_append, IH.
Qed.

Lemma lstrip_suffix (s : string) : ∃ spaces, s = spaces +:+ Py.lstrip s.
Proof.
  induction s as [|c s [sp IH]]; [by exists EmptyString|].
  simpl. destruct (Py.isspace c).
  - exists (String c sp). rewrite append_cons. by f_equal.
  - by exists EmptyString.
Qed.

Lemma lstrip_head (s : string) (c : ascii) (r : string) :
  Py.lstrip s = String c r → Py.isspace c = false.
Proof.
  induction s as [|a s IH]; [done|]. simpl.
  destruct (Py.isspace a) eqn:E; [done|]. by intros [= <- _].
Qed.

Lemma lstrip_fixed (s : string) :
  (∀ c r, s = String c r → Py.isspace c = false) → Py.lstrip s = s.
Proof.
  destruct s as [|c r]; [done|]. intros H. simpl. by rewrite (H c r).
Qed.

Lemma lstrip_idem (s : string) : Py.lstrip (Py.lstrip s) = Py.lstrip s.
Proof. apply lstrip_fixed. intros c r. apply lstrip_head. Qed.

Lemma rstrip_prefix (s : string) : ∃ spaces, s = Py.rstrip s +:+ spaces.
Proof.
  unfold Py.rstrip. destruct (lstrip_suffix (String.rev s)) as [sp Hsp].
  exists (String.rev sp).
  rewrite <- rev_append, <- Hsp. by rewrite rev_involutive.
Qed.

Lemma strip_idem (s : string) : Py.strip (Py.strip s) = Py.strip s.
Proof.
  unfold Py.strip. set (t := Py.lstrip s).
  assert (Py.lstrip (Py.rstrip t) = Py.rstrip t) as ->.
  { apply lstrip_fixed. intros c r Hr.
    destruct (rstrip_prefix t) as [sp Hsp]. rewrite Hr, append_cons in Hsp.
    by apply (lstrip_head s c (r +:+ sp)). }
  unfold Py.rstrip. by rewrite rev_involutive, lstrip_idem.
Qed.

Lemma read_keys_elem (text k : string) :
  k ∈ read_keys text ↔
  k ≠ EmptyString ∧ ∃ line, line ∈ Py.readlines text ∧ Py.strip line = k.
Proof.
  unfold read_keys.
  rewrite elem_of_list_to_set, list_elem_of_filter, list_elem_of_fmap.
  split; intros [Hne (line & H1 & H2)]; (split; [done|]); exists line; done.
Qed.

Lemma read_keys_empty (text : string) :
  read_keys text = ∅ ↔
  ∀ line, line ∈ Py.readlines text → Py.strip line = EmptyString.
Proof.
  split.
  - intros Hempty line Hline.
    destruct (decide (Py.strip line = EmptyString)) as [|Hne]; [done|].
    assert (Py.strip line ∈ read_keys text) as Hk by (apply read_keys_elem; eauto).
    rewrite Hempty in Hk. by apply not_elem_of_empty in Hk.
  - intros Hblank. apply set_eq. intros k. rewrite read_keys_elem.
    split; [|set_solver].
    intros (Hne & line & Hline & <-). by rewrite Hblank in Hne.
Qed.

(** X1. The keys read from the list are the stripped lines that are not
    blank: a key is never empty and carries no white space at either
    end, and the set is empty exactly when every line is blank. *)
Theorem read_keys_are_stripped_lines (text k : string) :
  (k ∈ read_keys text ↔
   k ≠ EmptyString ∧ ∃ line, line ∈ Py.readlines text ∧ Py.strip line = k)
  ∧ (k ∈ read_keys text → Py.strip k = k)
  ∧ (read_keys text = ∅ ↔
     ∀ line, line ∈ Py.readlines text → Py.strip line = EmptyString).
Proof.
  split_and!.
  - apply read_keys_elem.
  - intros (_ & line & _ & <-)%read_keys_elem. apply strip_idem.
  - apply read_keys_empty.
Qed.

End KeyList.

Section PathsAndPrefixes.

Lemma take_drop (n : nat) (p : string) : Py.take n p +:+ Py.drop n p = p.
Proof.
  unfold Py.take. revert p. induction n as [|n IH]; intros p.
  - by destruct p.
  - destruct p as [|c p]; [done|]. simpl. rewrite append_cons. by rewrite IH.
Qed.

Lemma rfind_from_spec (c : ascii) (s : string) : ∀ (i last : Z),
  Py.rfind_from c i s last = last
  ∨ (i ≤ Py.rfind_from c i s last)%Z
    ∧ String.get (Z.to_nat (Py.rfind_from c i s last - i)) s = Some c.
Proof.
  induction s as [|a s IH]; intros i last; [by left|]. simpl.
  destruct (IH (i + 1)%Z (if Ascii.eqb a c then i else last)) as [Heq|[Hle Hget]].
  - rewrite Heq. destruct (Ascii.eqb_spec a c) as [->|]; [|by left].
    right. split; [lia|]. by rewrite Z.sub_diag.
  - right. split; [lia|].
    set (r := Py.rfind_from c (i + 1) s _) in *.
    replace (Z.to_nat (r - i)) with (S (Z.to_nat (r - (i + 1)))) by lia.
    exact Hget.
Qed.

Lemma drop_get (n : nat) (p : string) (c : ascii) :
  String.get n p = Some c → ∃ r, Py.drop n p = String c r.
Proof.
  revert p. induction n as [|n IH]; intros [|a p]; simpl; try done.
  - intros [= ->]. eauto.
  - apply IH.
Qed.

Lemma take_nonempty (n : nat) (c : ascii) (p : string) :
  Py.take (S n) (String c p) ≠ EmptyString.
Proof. done. Qed.

Lemma has_name_before_dot_count (p : string) (i count : nat) :
  Py.has_name_before_dot p i count = true → count ≠ 0.
Proof. by destruct count. Qed.

(** X2. [posixpath.splitext], which gives the two prefixes of lines
    28-29: the two parts put together are the file name, the extension
    is empty or begins with a dot, and the prefix is empty for the empty
    file name only. *)
Theorem splitext_parts (p : string) :
  (Py.splitext p).1 +:+ (Py.splitext p).2 = p
  ∧ ((Py.splitext p).2 = EmptyString ∨ ∃ r, (Py.splitext p).2 = String "."%char r)
  ∧ ((Py.splitext p).1 = EmptyString → p = EmptyString).
Proof.
  unfold Py.splitext.
  set (sepIndex := Py.rfind "/"%char p). set (dotIndex := Py.rfind "."%char p).
  case_bool_decide as Hgt; [|by rewrite append_empty_r; auto].
  destruct (Py.has_name_before_dot _ _ _) eqn:Hname;
    [|by rewrite append_empty_r; auto].
  simpl. apply has_name_before_dot_count in Hname.
  assert (String.get (Z.to_nat dotIndex) p = Some "."%char) as Hdot.
  { destruct (rfind_from_spec "."%char p 0 (-1)) as [Heq|[_ Hget]].
    - fold (Py.rfind "."%char p) in Heq. fold dotIndex in Heq. lia.
    - fold (Py.rfind "."%char p) in Hget. fold dotIndex in Hget.
      by rewrite Z.sub_0_r in Hget. }
  split_and!.
  - apply take_drop.
  - right. by apply drop_get.
  - destruct p as [|c p]; [done|].
    destruct (Z.to_nat dotIndex) as [|n]; [lia|]. done.
Qed.

(** Replacing a prefix by itself changes nothing. *)
Lemma replace1_same (old s : string) : Py.replace1 old old s = s.
Proof.
  induction s as [|c s IH]; rewrite replace1_unfold.
  - by destruct old.
  - destruct (Py.startswith old (String c s)) eqn:E; [|by rewrite IH].
    apply startswith_spec in E as [t Ht]. rewrite Ht. by rewrite drop_app.
Qed.

(** X3. The paths of lines 46-47: a file name that begins with a slash
    is the path, whatever the directory; two different file names that
    do not begin with one give two different paths in a directory. *)
Theorem join_paths (lang_dir a b : string) :
  (Py.startswith "/" a = true → Py.join lang_dir a = a)
  ∧ (Py.startswith "/" a = false → Py.startswith "/" b = false →
     a ≠ b → Py.join lang_dir a ≠ Py.join lang_dir b).
Proof.
  unfold Py.join. split.
  - by intros ->.
  - intros -> -> Hne Heq. apply Hne.
    destruct (_ || _); [by apply (inj (String.app lang_dir))|].
    apply (inj (String.app lang_dir)) in Heq.
    by apply (inj (String.app "/")) in Heq.
Qed.

End PathsAndPrefixes.

(** ** The entry loop: renaming and what it prints *)

Section RenameFacts.

Context {Payload Annotation : Type}.
#[local] Abbreviation Entry := (Entry Payload Annotation).

Variable parse : string → list Entry.
Variable keys_to_move : gset string.

Lemma rename_lines_lookup (source_prefix destination_prefix : string)
    (h : list Entry) (rs : list ref) :
  Forall (λ r, to_move keys_to_move (h !!! r)) rs →
  ∀ i r, rs !! i = Some r →
    ∃ old_id,
      entry_id (h !!! r) = Some old_id
      ∧ rename_lines (Some (source_prefix, destination_prefix)) ((λ r, h !!! r) <$> rs) !! i
        = Some (renamed_line old_id
                  (Py.replace1 source_prefix destination_prefix old_id)).
Proof.
  induction 1 as [|r0 rs Hr0 Hrs IH]; intros i r Hi; [done|].
  unfold to_move in Hr0.
  destruct (entry_id (h !!! r0)) as [old0|] eqn:E0; [|done].
  unfold rename_lines in *. rewrite fmap_cons. simpl. rewrite E0. simpl.
  destruct i as [|i]; simpl in *.
  - injection Hi as <-. exists old0. by rewrite E0.
  - by apply IH.
Qed.

Lemma rename_lines_length (source_prefix destination_prefix : string)
    (h : list Entry) (rs : list ref) :
  Forall (λ r, to_move keys_to_move (h !!! r)) rs →
  length (rename_lines (Some (source_prefix, destination_prefix)) ((λ r, h !!! r) <$> rs))
  = length rs.
Proof.
  induction 1 as [|r0 rs Hr0 Hrs IH]; [done|].
  unfold to_move in Hr0.
  destruct (entry_id (h !!! r0)) as [old0|] eqn:E0; [|done].
  unfold rename_lines in *. rewrite fmap_cons. simpl in *. rewrite E0. simpl.
  by f_equal.
Qed.

(** X4. What the loop prints (line 72): nothing without renaming; with
    renaming, one line for each moved entry, in the order of the moved
    list, with the old identifier and the new one, also when the two are
    the same. *)
Theorem renamed_line_per_moved_entry
    (prefixes : option (string * string)) (source_content : string) :
  let h0 := (alloc [] (parse source_content)).1 in
  let source_body := (alloc [] (parse source_content)).2 in
  let st := entry_loop keys_to_move prefixes source_body (loop_init h0) in
  match prefixes with
  | None => st_printed st = []
  | Some (source_prefix, destination_prefix) =>
      length (st_printed st) = length (moved_entries st)
      ∧ ∀ i entry, moved_entries st !! i = Some entry →
          ∃ old_id,
            entry_id (h0 !!! entry) = Some old_id
            ∧ st_printed st !! i
              = Some (renamed_line old_id
                        (Py.replace1 source_prefix destination_prefix old_id))
  end.
Proof.
  intros h0 source_body st. subst h0 source_body st. simpl.
  set (es := parse source_content).
  destruct (entry_loop_spec keys_to_move prefixes (seq 0 (length es)) (loop_init es)
              (NoDup_seq 0 (length es))) as (Hm & _ & Hp & _).
  simpl in *. rewrite Hm, Hp. clear Hm Hp.
  destruct prefixes as [[sp dp]|]; [|done].
  assert (Forall (λ r, to_move keys_to_move (es !!! r))
            (filter (λ r, to_move keys_to_move (es !!! r)) (seq 0 (length es)))) as Hall.
  { apply Forall_forall. by intros r [? _]%list_elem_of_filter. }
  split.
  - by apply rename_lines_length.
  - by apply rename_lines_lookup.
Qed.

(** X5. When the two file names have the same prefix, renaming changes
    no entry: after the loop every object is as it was parsed. *)
Theorem same_prefix_renames_nothing
    (source_filename destination_filename source_content : string) :
  (Py.splitext source_filename).1 = (Py.splitext destination_filename).1 →
  let h0 := (alloc [] (parse source_content)).1 in
  let source_body := (alloc [] (parse source_content)).2 in
  let st := entry_loop keys_to_move
              (prefixes source_filename destination_filename true)
              source_body (loop_init h0) in
  st_heap st = h0.
Proof.
  intros Hsame h0 source_body st. subst h0 source_body st. simpl.
  set (es := parse source_content).
  destruct (entry_loop_spec keys_to_move
              (prefixes source_filename destination_filename true)
              (seq 0 (length es)) (loop_init es)
              (NoDup_seq 0 (length es))) as (_ & _ & _ & Hlen & Hheap).
  simpl in *.
  apply list_eq_same_length with (length es); [done..|].
  intros i x y Hi Hx Hy.
  assert (Hi' := Hheap i).
  rewrite !list_lookup_total_alt, Hx, Hy in Hi'. simpl in Hi'.
  rewrite Hi'. case_decide; [|done].
  unfold rename_entry, prefixes. rewrite Hsame.
  destruct (entry_id y) as [old|] eqn:E; [|done].
  rewrite replace1_same. by destruct y; simplify_eq/=.
Qed.

End RenameFacts.

(** ** One language directory: what it prints, what it leaves alone *)

Ltac split_events H :=
  repeat (rewrite elem_of_cons in H || rewrite elem_of_app in H
          || rewrite elem_of_nil in H);
  destruct_or?; try (exfalso; exact H).

Section DirectoryFacts.

Context {Payload Annotation : Type}.
#[local] Abbreviation Entry := (Entry Payload Annotation).

Variable parse : string → list Entry.
Variable serialize : list Entry → string.
Variables source_filename destination_filename : string.
Variable rename_keys : bool.
Variable keys_to_move : gset string.

#[local] Abbreviation process :=
  (process_dir parse serialize source_filename destination_filename rename_keys
     keys_to_move).
#[local] Abbreviation the_prefixes :=
  (prefixes source_filename destination_filename rename_keys).

Lemma printed_lines_app (l1 l2 : list event) :
  printed_lines (l1 ++ l2) = printed_lines l1 ++ printed_lines l2.
Proof. apply omap_app. Qed.

Lemma printed_lines_prints (lines : list string) :
  printed_lines (EvPrint <$> lines) = lines.
Proof. induction lines as [|l lines IH]; [done|]. simpl. by f_equal. Qed.

(** A turn, as a function of the files alone. *)
Lemma process_dir_cases (w : world) (lang_dir : string) :
  (process lang_dir w).1 = inr tt
  ∧ listing (process lang_dir w).2 = listing w
  ∧ files (process lang_dir w).2
    = match files w !! Py.join lang_dir source_filename with
      | Some _ =>
          dir_files parse serialize source_filename destination_filename rename_keys
            keys_to_move w lang_dir
      | None => files w
      end.
Proof.
  destruct (files w !! Py.join lang_dir source_filename) as [content|] eqn:Hsrc.
  - by rewrite (process_dir_found _ _ _ _ _ _ _ _ _ Hsrc).
  - by rewrite (process_dir_skip _ _ _ _ _ _ _ _ Hsrc).
Qed.

(** A turn writes to its source path and its destination path only. *)
Lemma process_dir_frame (w : world) (lang_dir path : string) :
  path ≠ Py.join lang_dir source_filename →
  path ≠ Py.join lang_dir destination_filename →
  files (process lang_dir w).2 !! path = files w !! path.
Proof.
  intros Hs Hd. destruct (process_dir_cases w lang_dir) as (_ & _ & ->).
  destruct (files w !! Py.join lang_dir source_filename); [|done].
  unfold dir_files. rewrite lookup_insert_ne by done.
  destruct (dir_moved _ _ _ _ _ _ _); [done|]. by rewrite lookup_insert_ne.
Qed.

(** A turn removes no file. *)
Lemma process_dir_dom (w : world) (lang_dir : string) :
  dom (files w) ⊆ dom (files (process lang_dir w).2).
Proof.
  destruct (process_dir_cases w lang_dir) as (_ & _ & ->).
  destruct (files w !! Py.join lang_dir source_filename); [|done].
  unfold dir_files. etrans; [|apply dom_insert_subseteq].
  destruct (dir_moved _ _ _ _ _ _ _); [done|]. apply dom_insert_subseteq.
Qed.

(** What a turn leaves at its two paths depends on what was there. *)
Lemma process_dir_local (w1 w2 : world) (lang_dir path : string) :
  files w1 !! Py.join lang_dir source_filename
    = files w2 !! Py.join lang_dir source_filename →
  files w1 !! Py.join lang_dir destination_filename
    = files w2 !! Py.join lang_dir destination_filename →
  path = Py.join lang_dir source_filename
    ∨ path = Py.join lang_dir destination_filename →
  files (process lang_dir w1).2 !! path = files (process lang_dir w2).2 !! path.
Proof.
  intros Hs Hd Hpath.
  destruct (process_dir_cases w1 lang_dir) as (_ & _ & ->).
  destruct (process_dir_cases w2 lang_dir) as (_ & _ & ->).
  rewrite <- Hs.
  destruct (files w1 !! Py.join lang_dir source_filename) as [content|] eqn:E1.
  - unfold dir_files, dir_merged, dir_remaining, dir_moved, entries_at.
    rewrite <- Hs, <- Hd, E1.
    destruct (decide (path = Py.join lang_dir source_filename)) as [->|Hne].
    + by rewrite !lookup_insert_eq.
    + destruct Hpath as [? | ->]; [done|]. rewrite !lookup_insert_ne by done.
      destruct (moved_values _ _ _); [done|]. by rewrite !lookup_insert_eq.
  - destruct Hpath as [-> | ->]; congruence.
Qed.

(** X6. The progress lines of a directory that is processed, in order:
    the line that names the source file, the renaming lines, then either
    the count of the moved entries with the destination path or the line
    that says that no key was found, and the line that closes the turn.
    The count is the number of entries that are moved, not of keys. *)
Theorem progress_lines_of_a_turn (w : world) (lang_dir content : string) :
  files w !! Py.join lang_dir source_filename = Some content →
  let es := parse (Py.universal_newlines content) in
  let moving := filter (λ e, to_move keys_to_move e) es in
  ∃ events,
    trace (process lang_dir w).2 = trace w ++ events
    ∧ printed_lines events
      = [processing_line (Py.join lang_dir source_filename)]
        ++ rename_lines the_prefixes moving
        ++ [match moving with
            | [] => no_keys_found_line
            | _ :: _ =>
                moved_line (length moving) (Py.join lang_dir destination_filename)
            end;
            updated_line].
Proof.
  intros Hsrc es moving.
  rewrite (process_dir_found _ _ _ _ _ _ _ _ _ Hsrc). simpl.
  eexists. split; [reflexivity|].
  unfold dir_events, dir_merged, dir_moved, dir_remaining, moved_values, entries_at.
  rewrite Hsrc. fold es moving.
  rewrite !printed_lines_app, printed_lines_prints.
  assert (printed_lines
            (if bool_decide (is_Some (files w !! Py.join lang_dir destination_filename))
             then [EvRead (Py.join lang_dir destination_filename)] else []) = []) as ->
    by (by destruct (bool_decide _)).
  destruct moving as [|m ms]; simpl; by rewrite ?length_fmap.
Qed.

Lemma written_texts_app (l1 l2 : list event) :
  written_texts (l1 ++ l2) = written_texts l1 ++ written_texts l2.
Proof. apply omap_app. Qed.

Lemma written_texts_prints (lines : list string) :
  written_texts (EvPrint <$> lines) = [].
Proof. by induction lines. Qed.

(** X7. With one file name for the source and the destination, the
    turn leaves in the file the serialization of the remaining entries
    only. When something is moved the file is written twice, first with
    its entries, the marker when there is one and the moved entries,
    then with the remaining entries, and the second write stands: the
    moved entries are in no file. When nothing is moved the file is
    written once. *)
Theorem same_file_last_write_stands (w : world) (lang_dir content : string) :
  source_filename = destination_filename →
  files w !! Py.join lang_dir source_filename = Some content →
  let source_file := Py.join lang_dir source_filename in
  let es := parse (Py.universal_newlines content) in
  let moved := rename_entry the_prefixes <$> filter (λ e, to_move keys_to_move e) es in
  let remaining := filter (λ e, ¬ to_move keys_to_move e) es in
  files (process lang_dir w).2 = <[source_file := serialize remaining]> (files w)
  ∧ ∃ events,
      trace (process lang_dir w).2 = trace w ++ events
      ∧ written_texts events
        = match moved with
          | [] => [(source_file, serialize remaining)]
          | _ :: _ =>
              [(source_file, serialize (es ++ separator es ++ moved));
               (source_file, serialize remaining)]
          end.
Proof.
  intros Hsame Hsrc. cbv zeta.
  rewrite (process_dir_found _ _ _ _ _ _ _ _ _ Hsrc). simpl.
  unfold dir_files, dir_events, dir_merged, dir_moved, dir_remaining, merged_values,
    moved_values, remaining_values, entries_at.
  rewrite <- Hsame, Hsrc.
  set (es := parse (Py.universal_newlines content)).
  set (moved := rename_entry _ <$> filter (λ e, to_move keys_to_move e) es).
  split.
  - destruct moved; [done|]. by rewrite insert_insert_eq.
  - eexists. split; [reflexivity|].
    rewrite !written_texts_app, written_texts_prints.
    rewrite bool_decide_eq_true_2 by eauto.
    by destruct moved.
Qed.

(** X8. Two directories whose source and destination paths are all
    different are processed independently: the files are the same
    whichever of the two is taken first. *)
Theorem directories_commute (w : world) (d1 d2 : string) :
  let s1 := Py.join d1 source_filename in
  let t1 := Py.join d1 destination_filename in
  let s2 := Py.join d2 source_filename in
  let t2 := Py.join d2 destination_filename in
  s1 ≠ s2 → s1 ≠ t2 → t1 ≠ s2 → t1 ≠ t2 →
  files (process d2 (process d1 w).2).2 = files (process d1 (process d2 w).2).2.
Proof.
  intros s1 t1 s2 t2 H12 H1t H2t Htt. subst s1 t1 s2 t2.
  apply map_eq. intros path.
  destruct (decide (path = Py.join d1 source_filename
                    ∨ path = Py.join d1 destination_filename)) as [Hp1|Hn1].
  - assert (path ≠ Py.join d2 source_filename
            ∧ path ≠ Py.join d2 destination_filename) as [??]
      by (destruct Hp1 as [-> | ->]; split; congruence).
    rewrite process_dir_frame by done.
    apply process_dir_local; [| |done];
      symmetry; apply process_dir_frame; congruence.
  - assert (path ≠ Py.join d1 source_filename
            ∧ path ≠ Py.join d1 destination_filename) as [??] by tauto.
    rewrite (process_dir_frame (process d2 w).2 d1) by done.
    destruct (decide (path = Py.join d2 source_filename
                      ∨ path = Py.join d2 destination_filename)) as [Hp2|Hn2].
    + apply process_dir_local; [| |done]; apply process_dir_frame; congruence.
    + assert (path ≠ Py.join d2 source_filename
              ∧ path ≠ Py.join d2 destination_filename) as [??] by tauto.
      by rewrite !process_dir_frame.
Qed.

(** X14. The order of a turn that moves something: the files are read
    first, then the destination is written, then the source; nothing is
    written before the reads are over, and no file is read after the
    first write. *)
Theorem destination_written_before_source (w : world) (lang_dir content : string) :
  files w !! Py.join lang_dir source_filename = Some content →
  moved_values keys_to_move the_prefixes (parse (Py.universal_newlines content)) ≠ [] →
  ∃ reading destination_text between source_text after,
    trace (process lang_dir w).2
    = trace w ++ reading
      ++ [EvWrite (Py.join lang_dir destination_filename) destination_text]
      ++ between
      ++ [EvWrite (Py.join lang_dir source_filename) source_text]
      ++ after
    ∧ (∀ path text, EvWrite path text ∉ reading)
    ∧ (∀ path, EvRead path ∉ between ++ after)
    ∧ (∀ path text, EvWrite path text ∉ between ++ after).
Proof.
  intros Hsrc Hmoved.
  rewrite (process_dir_found _ _ _ _ _ _ _ _ _ Hsrc). simpl.
  unfold dir_events, dir_moved, entries_at. rewrite Hsrc.
  destruct (moved_values _ _ _) as [|m ms] eqn:Em; [done|].
  exists ([EvExists (Py.join lang_dir source_filename) true;
           EvPrint (processing_line (Py.join lang_dir source_filename));
           EvRead (Py.join lang_dir source_filename)]
          ++ (EvPrint <$> rename_lines the_prefixes
                (filter (λ e, to_move keys_to_move e)
                   (parse (Py.universal_newlines content))))
          ++ [EvExists (Py.join lang_dir destination_filename)
                (bool_decide (is_Some (files w !! Py.join lang_dir destination_filename)))]
          ++ (if bool_decide (is_Some (files w !! Py.join lang_dir destination_filename))
              then [EvRead (Py.join lang_dir destination_filename)] else [])).
  eexists _, [EvPrint _], _, [EvPrint updated_line].
  split_and!.
  - repeat (rewrite <- app_assoc; simpl). reflexivity.
  - intros path text Hin. split_events Hin; try done.
    + apply list_elem_of_fmap in Hin as (l & ? & _). done.
    + destruct (bool_decide _); split_events Hin; done.
  - intros path Hin. split_events Hin; done.
  - intros path text Hin. split_events Hin; done.
Qed.

End DirectoryFacts.

(** ** The whole run: the paths it takes and the files it leaves alone *)

Section RunFacts2.

Context {Payload Annotation : Type}.
#[local] Abbreviation Entry := (Entry Payload Annotation).

Variable parse : string → list Entry.
Variable serialize : list Entry → string.
Variables base_dir strings_to_move_file source_filename destination_filename : string.
Variable rename_keys : bool.

#[local] Abbreviation run :=
  (move_and_rename_fluent_strings parse serialize base_dir strings_to_move_file
     source_filename destination_filename rename_keys).
#[local] Abbreviation process :=
  (process_dir parse serialize source_filename destination_filename rename_keys).

#[local] Abbreviation scanned := (scanned base_dir strings_to_move_file).

Lemma for_each_process_cons (keys : gset string) (d : string) (ds : list string)
    (w : world) :
  for_each (d :: ds) (process keys) w = for_each ds (process keys) (process keys d w).2.
Proof.
  simpl. rewrite bind_run.
  assert (H := process_dir_returns parse serialize source_filename destination_filename
                 rename_keys keys d w).
  by destruct (process keys d w) as [[e|[]] w'].
Qed.

(** The three ways a run goes. *)
Lemma run_cases (w : world) :
  run w =
    match files w !! strings_to_move_file with
    | None =>
        (inr tt,
         {| files := files w; listing := listing w;
            trace := trace w ++
              [EvExists strings_to_move_file false;
               EvPrint (missing_list_line strings_to_move_file)] |})
    | Some content =>
        if decide (read_keys (Py.universal_newlines content) = ∅) then
          (inr tt,
           {| files := files w; listing := listing w;
              trace := trace w ++
                [EvExists strings_to_move_file true; EvRead strings_to_move_file;
                 EvPrint no_keys_line] |})
        else
          match listing w (Py.join base_dir "*/") with
          | [] =>
              (inr tt,
               {| files := files w; listing := listing w;
                  trace := trace (scanned w) ++ [EvPrint (no_dirs_line base_dir)] |})
          | dirs =>
              for_each dirs (process (read_keys (Py.universal_newlines content)))
                (scanned w)
          end
    end.
Proof.
  unfold move_and_rename_fluent_strings.
  rewrite bind_run. unfold path_exists at 1.
  destruct (files w !! strings_to_move_file) as [content|] eqn:Hk.
  - rewrite bool_decide_eq_true_2 by eauto. change (negb true) with false.
    cbv iota zeta.
    rewrite bind_run. unfold read_text at 1. simpl files. rewrite Hk.
    destruct (decide _).
    + unfold print, emit. cbn [files listing trace]. by rewrite <- !app_assoc.
    + rewrite bind_run. unfold glob at 1.
      change (listing (emit _ (emit _ w))) with (listing w).
      assert (emit (EvGlob (Py.join base_dir "*/"))
                (emit (EvRead strings_to_move_file)
                   (emit (EvExists strings_to_move_file true) w)) = scanned w) as ->.
      { unfold emit, scanned. cbn [files listing trace]. by rewrite <- !app_assoc. }
      by destruct (listing w (Py.join base_dir "*/")).
  - rewrite bool_decide_eq_false_2 by apply is_Some_None.
    unfold print, emit. cbn [files listing trace negb]. by rewrite <- !app_assoc.
Qed.

Lemma for_each_process_frame (keys : gset string) (dirs : list string) :
  ∀ (w : world) (path : string),
  (∀ d, d ∈ dirs →
     path ≠ Py.join d source_filename ∧ path ≠ Py.join d destination_filename) →
  files (for_each dirs (process keys) w).2 !! path = files w !! path.
Proof.
  induction dirs as [|d dirs IH]; intros w path Hout; [done|].
  rewrite for_each_process_cons, IH.
  - destruct (Hout d) as [??]; [left|]. by apply process_dir_frame.
  - intros d' Hd'. apply Hout. by right.
Qed.

Lemma for_each_process_dom (keys : gset string) (dirs : list string) :
  ∀ w : world, dom (files w) ⊆ dom (files (for_each dirs (process keys) w).2).
Proof.
  induction dirs as [|d dirs IH]; intros w; [done|].
  rewrite for_each_process_cons. etrans; [|apply IH]. apply process_dir_dom.
Qed.

(** X9. A key list without a key, empty or with blank lines only: the
    run reads it, prints that there is no key to move and returns; no
    directory is scanned and no file is written. *)
Theorem blank_key_list_stops_the_run (w : world) (content : string) :
  files w !! strings_to_move_file = Some content →
  (∀ line, line ∈ Py.readlines (Py.universal_newlines content) →
           Py.strip line = EmptyString) →
  run w
  = (inr tt,
     {| files := files w; listing := listing w;
        trace := trace w ++
          [EvExists strings_to_move_file true; EvRead strings_to_move_file;
           EvPrint no_keys_line] |}).
Proof.
  intros Hk Hblank. rewrite run_cases, Hk.
  by rewrite decide_True by (by apply read_keys_empty).
Qed.

(** With keys in the list and directories in the scan, the run is the
    loop over the scanned directories, in the order of the scan, each
    with the keys of the list. *)
Lemma run_is_the_loop (w : world) (content : string) :
  files w !! strings_to_move_file = Some content →
  read_keys (Py.universal_newlines content) ≠ ∅ →
  listing w (Py.join base_dir "*/") ≠ [] →
  run w
  = for_each (listing w (Py.join base_dir "*/"))
      (process (read_keys (Py.universal_newlines content))) (scanned w).
Proof.
  intros Hk Hkeys Hdirs. rewrite run_cases, Hk.
  rewrite decide_False by done.
  by destruct (listing w (Py.join base_dir "*/")).
Qed.

(** X11. Whatever the run does, a file that is neither the source file
    nor the destination file of a scanned directory is as it was. *)
Theorem run_touches_sources_and_destinations_only (w : world) (path : string) :
  (∀ d, d ∈ listing w (Py.join base_dir "*/") →
     path ≠ Py.join d source_filename ∧ path ≠ Py.join d destination_filename) →
  files (run w).2 !! path = files w !! path.
Proof.
  intros Hout. rewrite run_cases.
  destruct (files w !! strings_to_move_file) as [content|]; [|done].
  destruct (decide _); [done|].
  destruct (listing w (Py.join base_dir "*/")) as [|d ds] eqn:Hdirs; [done|].
  by rewrite for_each_process_frame.
Qed.

Lemma reads_tested_app (seen a b : list event) :
  reads_tested seen a → reads_tested (seen ++ a) b → reads_tested seen (a ++ b).
Proof.
  intros Ha Hb before path after Heq.
  apply app_eq_inv in Heq as [(k & Hk1 & Hk2)|(k & Hk1 & Hk2)].
  - destruct k as [|e k].
    + rewrite app_nil_r in Hk1. subst a. simpl in Hk2.
      specialize (Hb [] path after (eq_sym Hk2)). by rewrite app_nil_r in Hb.
    + simpl in Hk2. injection Hk2 as <- _. by apply (Ha before path k).
  - specialize (Hb k path after Hk2). subst before.
    by rewrite app_assoc.
Qed.

Lemma reads_tested_no_read (seen l : list event) :
  (∀ path, EvRead path ∉ l) → reads_tested seen l.
Proof.
  intros Hno before path after ->. exfalso. apply (Hno path).
  apply elem_of_app. right. left.
Qed.

Lemma reads_tested_read (seen : list event) (path : string) :
  EvExists path true ∈ seen → reads_tested seen [EvRead path].
Proof.
  intros Hin before p after Heq.
  destruct before as [|e [|??]]; simplify_eq/=. by rewrite app_nil_r.
Qed.

Lemma reads_tested_mono (seen seen' l : list event) :
  seen ⊆ seen' → reads_tested seen l → reads_tested seen' l.
Proof.
  intros Hsub Hl before path after Heq.
  specialize (Hl before path after Heq).
  apply elem_of_app in Hl as [Hl|Hl]; apply elem_of_app; [left|by right].
  by apply Hsub.
Qed.

(** A turn reads its source file and its destination file after it has
    found them. *)
Lemma process_dir_reads_tested (keys : gset string) (lang_dir : string) (w : world) :
  ∃ events,
    trace (process keys lang_dir w).2 = trace w ++ events
    ∧ reads_tested [] events.
Proof.
  destruct (files w !! Py.join lang_dir source_filename) as [content|] eqn:Hsrc.
  - rewrite (process_dir_found _ _ _ _ _ _ _ _ _ Hsrc). simpl.
    eexists. split; [reflexivity|]. unfold dir_events.
    apply (reads_tested_app _ [_; _; _]).
    { apply (reads_tested_app _ [_; _] [_]).
      - apply reads_tested_no_read. intros path Hin. split_events Hin; done.
      - apply reads_tested_read. simpl. left. }
    apply reads_tested_app.
    { apply reads_tested_no_read. intros path Hin.
      apply list_elem_of_fmap in Hin as (l & ? & _). done. }
    apply (reads_tested_app _ [_]).
    { apply reads_tested_no_read. intros path Hin. split_events Hin; done. }
    apply reads_tested_app.
    { destruct (bool_decide _).
      - apply reads_tested_read. rewrite !elem_of_app. right. left.
      - apply reads_tested_no_read. intros path Hin. by apply elem_of_nil in Hin. }
    apply reads_tested_no_read. intros path Hin.
    destruct (dir_moved _ _ _ _ _ _ _); split_events Hin; done.
  - rewrite (process_dir_skip _ _ _ _ _ _ _ _ Hsrc). simpl.
    eexists. split; [reflexivity|].
    apply reads_tested_no_read. intros path Hin. split_events Hin; done.
Qed.

Lemma for_each_reads_tested (keys : gset string) (dirs : list string) :
  ∀ w : world,
  ∃ events,
    trace (for_each dirs (process keys) w).2 = trace w ++ events
    ∧ reads_tested [] events.
Proof.
  induction dirs as [|d dirs IH]; intros w.
  - exists []. split; [by rewrite app_nil_r|].
    apply reads_tested_no_read. intros path Hin. by apply elem_of_nil in Hin.
  - rewrite for_each_process_cons.
    destruct (process_dir_reads_tested keys d w) as (ev1 & Ht1 & H1).
    destruct (IH (process keys d w).2) as (ev2 & Ht2 & H2).
    exists (ev1 ++ ev2). split.
    + by rewrite Ht2, Ht1, app_assoc.
    + apply reads_tested_app; [done|].
      apply (reads_tested_mono []); [|done]. intros e He. by apply elem_of_nil in He.
Qed.

(** X12. The run opens for reading only what it has found: every read
    of a file, the key list, a source file or a destination file, comes
    after a test in the same run that found this path. *)
Theorem reads_follow_existence_tests (w : world) :
  ∃ events,
    trace (run w).2 = trace w ++ events
    ∧ ∀ before path after,
        events = before ++ EvRead path :: after →
        EvExists path true ∈ before.
Proof.
  enough (∃ events, trace (run w).2 = trace w ++ events ∧ reads_tested [] events)
    as (events & Ht & Hg).
  { exists events. split; [done|]. intros before path after Heq.
    exact (Hg before path after Heq). }
  rewrite run_cases.
  destruct (files w !! strings_to_move_file) as [content|].
  - destruct (decide _).
    + eexists. split; [reflexivity|].
      apply (reads_tested_app _ [_] [_; _]).
      { apply reads_tested_no_read. intros path Hin. split_events Hin; done. }
      apply (reads_tested_app _ [_] [_]).
      { apply reads_tested_read. left. }
      apply reads_tested_no_read. intros path Hin. split_events Hin; done.
    + assert (reads_tested []
                [EvExists strings_to_move_file true; EvRead strings_to_move_file;
                 EvGlob (Py.join base_dir "*/")]) as Hscan.
      { apply (reads_tested_app _ [_] [_; _]).
        { apply reads_tested_no_read. intros path Hin. split_events Hin; done. }
        apply (reads_tested_app _ [_] [_]).
        { apply reads_tested_read. left. }
        apply reads_tested_no_read. intros path Hin. split_events Hin; done. }
      destruct (listing w (Py.join base_dir "*/")) as [|d ds].
      * simpl. eexists. split; [by rewrite <- app_assoc|].
        apply reads_tested_app; [done|].
        apply reads_tested_no_read. intros path Hin. split_events Hin; done.
      * destruct (for_each_reads_tested
                    (read_keys (Py.universal_newlines content)) (d :: ds)
                    (scanned w)) as (ev & Ht & Hg).
        rewrite Ht. simpl. eexists. split; [by rewrite <- app_assoc|].
        apply reads_tested_app; [done|].
        apply (reads_tested_mono []); [|done]. intros e He. by apply elem_of_nil in He.
  - eexists. split; [reflexivity|].
    apply reads_tested_no_read. intros path Hin. split_events Hin; done.
Qed.

(** X13. When none of the directories of the loop has the source file,
    the loop tests and reports each of them in turn and changes no
    file. *)
Theorem loop_over_directories_without_source (keys : gset string)
    (dirs : list string) (w : world) :
  (∀ d, d ∈ dirs → files w !! Py.join d source_filename = None) →
  for_each dirs (process keys) w
  = (inr tt,
     {| files := files w; listing := listing w;
        trace := trace w ++
          (dirs ≫= λ d, [EvExists (Py.join d source_filename) false;
                         EvPrint (skipping_line source_filename d)]) |}).
Proof.
  revert w. induction dirs as [|d dirs IH]; intros w Hnone.
  - simpl. rewrite app_nil_r. by destruct w.
  - rewrite for_each_process_cons.
    rewrite (process_dir_skip _ _ _ _ _ _ _ _ (Hnone d ltac:(left))).
    rewrite IH by (intros d' Hd'; apply Hnone; by right).
    simpl. by rewrite <- app_assoc.
Qed.

Lemma for_each_process_app (keys : gset string) (l1 l2 : list string) :
  ∀ w : world,
  for_each (l1 ++ l2) (process keys) w
  = for_each l2 (process keys) (for_each l1 (process keys) w).2.
Proof.
  induction l1 as [|d l1 IH]; intros w; [done|].
  rewrite <- app_comm_cons, !for_each_process_cons. apply IH.
Qed.

(** X10. The result of a run for one scanned directory that has the
    source file, when the scan lists it once and no other scanned
    directory shares a path with it: its source file holds the
    serialization of its entries whose keys are not in the list, in
    their order, and, when something is moved to a destination that is
    another file, the destination holds its former entries, the marker
    when there is one, and the moved entries. *)
Theorem run_result_for_a_directory
    (w : world) (content source_content : string)
    (before after : list string) (lang_dir : string) :
  let keys := read_keys (Py.universal_newlines content) in
  let source_file := Py.join lang_dir source_filename in
  let destination_file := Py.join lang_dir destination_filename in
  let es := parse (Py.universal_newlines source_content) in
  let moved :=
    rename_entry (prefixes source_filename destination_filename rename_keys)
      <$> filter (λ e, to_move keys e) es in
  let remaining := filter (λ e, ¬ to_move keys e) es in
  let destination := entries_at parse w destination_file in
  files w !! strings_to_move_file = Some content →
  keys ≠ ∅ →
  listing w (Py.join base_dir "*/") = before ++ lang_dir :: after →
  (∀ d, d ∈ before ++ after →
     ∀ path, path = source_file ∨ path = destination_file →
       path ≠ Py.join d source_filename ∧ path ≠ Py.join d destination_filename) →
  files w !! source_file = Some source_content →
  files (run w).2 !! source_file = Some (serialize remaining)
  ∧ (moved ≠ [] → source_file ≠ destination_file →
     files (run w).2 !! destination_file
     = Some (serialize (destination ++ separator destination ++ moved))).
Proof.
  intros keys source_file destination_file es moved remaining destination
    Hk Hkeys Hdirs Hind Hsrc.
  assert (Hrun : run w = for_each (before ++ lang_dir :: after) (process keys)
                           (scanned w)).
  { rewrite run_cases, Hk. fold keys. rewrite decide_False by done.
    rewrite Hdirs. destruct (before ++ lang_dir :: after) eqn:E; [|done].
    by destruct before. }
  rewrite Hrun, for_each_process_app, for_each_process_cons.
  set (w1 := (for_each before (process keys) (scanned w)).2).
  assert (Hw1 : ∀ path, path = source_file ∨ path = destination_file →
                files w1 !! path = files w !! path).
  { intros path Hpath. unfold w1. rewrite for_each_process_frame; [done|].
    intros d Hd. apply Hind; [|done]. apply elem_of_app. by left. }
  assert (Hafter : ∀ path, path = source_file ∨ path = destination_file →
            files (for_each after (process keys) (process keys lang_dir w1).2).2 !! path
            = files (process keys lang_dir w).2 !! path).
  { intros path Hpath. rewrite for_each_process_frame.
    - apply process_dir_local; [apply Hw1; by left | apply Hw1; by right | done].
    - intros d Hd. apply Hind; [|done]. apply elem_of_app. by right. }
  rewrite !Hafter by auto.
  destruct (process_dir_cases parse serialize source_filename destination_filename
              rename_keys keys w lang_dir) as (_ & _ & ->).
  clear Hafter Hw1 w1 Hrun Hind Hdirs.
  subst source_file destination_file es moved remaining destination.
  rewrite Hsrc.
  unfold dir_files, dir_merged, dir_moved, dir_remaining, merged_values,
    moved_values, remaining_values, entries_at.
  rewrite Hsrc.
  split.
  - apply lookup_insert_eq.
  - intros Hmoved Hne. rewrite lookup_insert_ne by done.
    destruct (rename_entry _ <$> _); [done|]. apply lookup_insert_eq.
Qed.

End RunFacts2.

(** ** Further runs on concrete files *)

Section ConcreteFacts.

#[local] Abbreviation toy_dir :=
  (process_dir Toy.parse Toy.serialize "common.ftl" "new_component.ftl" false {["b"]}).
#[local] Abbreviation toy_run :=
  (move_and_rename_fluent_strings Toy.parse Toy.serialize
     "loc" "keys.txt" "common.ftl" "new_component.ftl" false).

Lemma same_prefix_renames_nothing_witness :
  st_heap (entry_loop {["b"]} (prefixes "common.ftl" "common.txt" true)
             (alloc [] (Toy.parse Toy.abc)).2
             (loop_init (alloc [] (Toy.parse Toy.abc)).1))
  = Toy.parse Toy.abc.
Proof.
  rewrite (same_prefix_renames_nothing Toy.parse {["b"]} "common.ftl" "common.txt"
             Toy.abc); [reflexivity | by vm_compute].
Defined.

Lemma progress_lines_of_a_turn_witness :
  ∃ events,
    trace (toy_dir "loc/en/" Toy.fresh).2 = trace Toy.fresh ++ events
    ∧ printed_lines events
      = [String Py.LF "Processing 'loc/en/common.ftl'...";
         "Successfully moved 1 keys to 'loc/en/new_component.ftl'.";
         "Updated the source file. Operation complete for this language."].
Proof.
  destruct (progress_lines_of_a_turn Toy.parse Toy.serialize
              "common.ftl" "new_component.ftl" false {["b"]}
              Toy.fresh "loc/en/" Toy.abc) as (events & Htrace & Hlines).
  - by vm_compute.
  - exists events. split; [exact Htrace|]. rewrite Hlines. by vm_compute.
Defined.

Lemma same_file_last_write_stands_witness :
  files (process_dir Toy.parse Toy.serialize "common.ftl" "common.ftl" false {["b"]}
           "loc/en/" Toy.fresh).2
  = {[ "keys.txt" := "b" +:+ Toy.nl;
       "loc/en/common.ftl" := "a = 1" +:+ Toy.nl +:+ "c = 3" +:+ Toy.nl ]}.
Proof.
  destruct (same_file_last_write_stands Toy.parse Toy.serialize
              "common.ftl" "common.ftl" false {["b"]} Toy.fresh "loc/en/" Toy.abc)
    as [Hfiles _].
  - reflexivity.
  - by vm_compute.
  - rewrite Hfiles. by vm_compute.
Defined.

Lemma directories_commute_witness :
  files (toy_dir "loc/de/" (toy_dir "loc/en/" Toy.fresh).2).2
  = files (toy_dir "loc/en/" (toy_dir "loc/de/" Toy.fresh).2).2.
Proof.
  apply (directories_commute Toy.parse Toy.serialize
           "common.ftl" "new_component.ftl" false {["b"]} Toy.fresh
           "loc/en/" "loc/de/"); by vm_compute.
Defined.

Lemma blank_key_list_stops_the_run_witness :
  toy_run blank_key_list
  = (inr tt,
     {| files := files blank_key_list; listing := Toy.scan;
        trace := [EvExists "keys.txt" true; EvRead "keys.txt";
                  EvPrint "No keys to move. Exiting."] |}).
Proof.
  rewrite (blank_key_list_stops_the_run Toy.parse Toy.serialize
             "loc" "keys.txt" "common.ftl" "new_component.ftl" false
             blank_key_list ("  " +:+ Toy.nl +:+ Toy.nl)).
  - reflexivity.
  - by vm_compute.
  - intros line Hline. vm_compute in Hline.
    repeat (apply elem_of_cons in Hline as [->|Hline]; [by vm_compute|]).
    by apply elem_of_nil in Hline.
Defined.

Lemma run_touches_sources_and_destinations_only_witness :
  files (toy_run Toy.fresh).2 !! "keys.txt" = Some ("b" +:+ Toy.nl).
Proof.
  rewrite (run_touches_sources_and_destinations_only Toy.parse Toy.serialize
             "loc" "keys.txt" "common.ftl" "new_component.ftl" false
             Toy.fresh "keys.txt").
  - by vm_compute.
  - intros d Hd. vm_compute in Hd.
    repeat (apply elem_of_cons in Hd as [->|Hd]; [by vm_compute|]).
    by apply elem_of_nil in Hd.
Defined.

Lemma loop_over_directories_without_source_witness :
  files (for_each ["loc/de/"; "loc/fr/"] toy_dir Toy.fresh).2 = files Toy.fresh.
Proof.
  rewrite (loop_over_directories_without_source Toy.parse Toy.serialize
             "common.ftl" "new_component.ftl" false {["b"]}
             ["loc/de/"; "loc/fr/"] Toy.fresh); [reflexivity|].
  intros d Hd.
  repeat (apply elem_of_cons in Hd as [->|Hd]; [by vm_compute|]).
  by apply elem_of_nil in Hd.
Defined.

Lemma destination_written_before_source_witness :
  ∃ reading destination_text between source_text after,
    trace (toy_dir "loc/en/" Toy.fresh).2
    = trace Toy.fresh ++ reading
      ++ [EvWrite "loc/en/new_component.ftl" destination_text]
      ++ between
      ++ [EvWrite "loc/en/common.ftl" source_text]
      ++ after.
Proof.
  destruct (destination_written_before_source Toy.parse Toy.serialize
              "common.ftl" "new_component.ftl" false {["b"]}
              Toy.fresh "loc/en/" Toy.abc)
    as (reading & dtext & between & stext & after & Htrace & _).
  - by vm_compute.
  - by vm_compute.
  - by exists reading, dtext, between, stext, after.
Defined.

Lemma run_result_for_a_directory_witness :
  files (toy_run Toy.fresh).2 !! "loc/en/common.ftl"
  = Some ("a = 1" +:+ Toy.nl +:+ "c = 3" +:+ Toy.nl).
Proof.
  destruct (run_result_for_a_directory Toy.parse Toy.serialize
              "loc" "keys.txt" "common.ftl" "new_component.ftl" false
              Toy.fresh ("b" +:+ Toy.nl) Toy.abc [] ["loc/de/"] "loc/en/")
    as [Hsource _].
  - by vm_compute.
  - by vm_compute.
  - by vm_compute.
  - intros d Hd path Hpath.
    apply list_elem_of_singleton in Hd as ->.
    destruct Hpath as [-> | ->]; by vm_compute.
  - by vm_compute.
  - refine (eq_trans Hsource _). by vm_compute.
Defined.

End ConcreteFacts.
